(** * pyrff: random Fourier features (src/pyrff/rff.py)

    A shallow embedding of [_compute_inverse], [_vectorize] and [sample_rff]
    together with the three callables that [sample_rff] returns.

    Floating-point numbers are kept abstract: the development is stated
    over any carrier [F] with the operations the program applies to its
    numbers and uses no algebraic law of them, so every statement holds
    for IEEE doubles as well as for the reals.  numpy arrays are a shape
    and a row-major buffer.  The numpy/scipy routines that draw random
    numbers or factor matrices are a parameter ([Library]); the program
    state threads the generator and a log of the library calls issued. *)

From Stdlib Require Import List Arith Bool Lia ZArith.
Import ListNotations.

Set Implicit Arguments.

(** ** Exceptions and results *)

Inductive exn : Type :=
| ShapeError
| DtypeError
| AssertionError
| LinAlgError
| ValueError
| IndexError
| OtherError (tag : nat).

Inductive result (A : Type) : Type :=
| Ok (a : A)
| Raise (e : exn).

Arguments Ok {A} a.
Arguments Raise {A} e.

Definition exn_eqb (a b : exn) : bool :=
  match a, b with
  | ShapeError, ShapeError | DtypeError, DtypeError
  | AssertionError, AssertionError | LinAlgError, LinAlgError
  | ValueError, ValueError | IndexError, IndexError => true
  | OtherError s, OtherError t => Nat.eqb s t
  | _, _ => false
  end.

Definition rbind {A B} (r : result A) (k : A -> result B) : result B :=
  match r with Ok a => k a | Raise e => Raise e end.

(** ** State and exception monad *)

Definition SE (S A : Type) : Type := S -> result A * S.

Definition ret {S A} (a : A) : SE S A := fun s => (Ok a, s).

Definition raise {S A} (e : exn) : SE S A := fun s => (Raise e, s).

Definition bind {S A B} (m : SE S A) (k : A -> SE S B) : SE S B :=
  fun s => match m s with
           | (Ok a, s') => k a s'
           | (Raise e, s') => (Raise e, s')
           end.

Definition lift {S A} (r : result A) : SE S A := fun s => (r, s).

(** Python's [assert]. *)
Definition assert_ {S} (b : bool) : SE S unit :=
  if b then ret tt else raise AssertionError.

(** [try: m except exc: h]; only [exc] is caught. *)
Definition try_except {S A} (m : SE S A) (exc : exn) (h : SE S A) : SE S A :=
  fun s => match m s with
           | (Raise e, s') => if exn_eqb e exc then h s' else (Raise e, s')
           | r => r
           end.

Notation "x <- m ;; k" := (bind m (fun x => k))
  (at level 61, m at next level, right associativity).
Notation "m ;;; k" := (bind m (fun _ => k))
  (at level 61, right associativity).

(** [for n in range(N)] threading an accumulator. *)
Fixpoint for_range {S A} (ns : list nat) (body : nat -> A -> SE S A) (a : A)
  : SE S A :=
  match ns with
  | [] => ret a
  | n :: ns' => a' <- body n a ;; for_range ns' body a'
  end.

(** ** Scalars

    The operations the program applies to its floats.  All of them are
    total, as they are on numpy's float64: a zero divisor gives an infinity
    or a nan, not an exception. *)

Class Scalar (F : Type) : Type := {
  of_nat : nat -> F;          (* an integer literal or Python int as a float *)
  fadd : F -> F -> F;
  fmul : F -> F -> F;
  fdiv : F -> F -> F;
  fneg : F -> F;
  fpow2 : F -> F;             (* [x**2] *)
  fsqrt : F -> F;
  fcos : F -> F;
  fsin : F -> F;
  fpi : F;                    (* [numpy.pi] *)
  fisinf : F -> bool;         (* [numpy.isinf] *)
  fgt0 : F -> bool;           (* [x > 0] *)
  fge0 : F -> bool            (* [x >= 0] *)
}.

Definition shape_eqb (s t : list nat) : bool :=
  if list_eq_dec Nat.eq_dec s t then true else false.

Definition size_of (sh : list nat) : nat := fold_right Nat.mul 1 sh.

Section Arrays.

Context {F : Type} `{Scalar F}.

(** The sum of a sequence of products, accumulated from [0.0]. *)
Definition fsum (l : list F) : F := fold_left fadd l (of_nat 0).

(** ** numpy arrays: a shape and a row-major buffer *)

Record ndarray : Type := mk_nd { shape : list nat; data : list F }.

Definition wf (a : ndarray) : Prop := length (data a) = size_of (shape a).

Definition ndim (a : ndarray) : nat := length (shape a).

(** The value of a 0-dimensional array or Python scalar. *)
Definition item (a : ndarray) : F := nth 0 (data a) (of_nat 0).

Definition scalar0 (x : F) : ndarray := mk_nd [] [x].

Definition get1 (a : ndarray) (i : nat) : F := nth i (data a) (of_nat 0).

Definition get2 (a : ndarray) (i j : nat) : F :=
  nth (i * nth 1 (shape a) 0 + j) (data a) (of_nat 0).

Definition mk1 (n : nat) (f : nat -> F) : ndarray :=
  mk_nd [n] (map f (seq 0 n)).

Definition mk2 (r c : nat) (f : nat -> nat -> F) : ndarray :=
  mk_nd [r; c] (flat_map (fun i => map (f i) (seq 0 c)) (seq 0 r)).

(** [numpy.atleast_1d], [numpy.atleast_2d] *)
Definition atleast_1d (a : ndarray) : ndarray :=
  match shape a with
  | [] => mk_nd [1] (data a)
  | _ => a
  end.

Definition atleast_2d (a : ndarray) : ndarray :=
  match shape a with
  | [] => mk_nd [1; 1] (data a)
  | [n] => mk_nd [1; n] (data a)
  | _ => a
  end.

(** [a.T].  Arrays of rank 0 and 1 are their own transpose; the program
    applies [.T] only behind a shape check that fixes the rank to 2, so
    the axis reversal of higher ranks is not spelled out. *)
Definition transpose (a : ndarray) : ndarray :=
  match shape a with
  | [r; c] => mk2 c r (fun i j => get2 a j i)
  | _ => a
  end.

(** [numpy.dot(a, b)] with a 2-dimensional [a], the only way the program
    calls it: matrix-vector, matrix-matrix, and the general rule for a
    second operand of higher rank (sum over the last axis of [a] and the
    second-to-last of [b]). *)
Definition dot (a b : ndarray) : result ndarray :=
  match shape a, shape b with
  | [m; k], [k'] =>
      if Nat.eqb k k'
      then Ok (mk1 m (fun i =>
             fsum (map (fun l => fmul (get2 a i l) (get1 b l)) (seq 0 k))))
      else Raise ValueError
  | [m; k], [k'; n] =>
      if Nat.eqb k k'
      then Ok (mk2 m n (fun i j =>
             fsum (map (fun l => fmul (get2 a i l) (get2 b l j)) (seq 0 k))))
      else Raise ValueError
  | [m; k], _ :: _ :: _ :: _ =>
      let sh := shape b in
      let pre := firstn (length sh - 2) sh in
      let k' := nth (length sh - 2) sh 0 in
      let n := nth (length sh - 1) sh 0 in
      if Nat.eqb k k'
      then Ok (mk_nd (m :: pre ++ [n])
             (flat_map (fun i =>
                flat_map (fun p =>
                  map (fun j =>
                    fsum (map (fun l =>
                      fmul (get2 a i l)
                           (nth (p * (k * n) + l * n + j) (data b) (of_nat 0)))
                      (seq 0 k)))
                    (seq 0 n))
                  (seq 0 (size_of pre)))
                (seq 0 m)))
      else Raise ValueError
  | _, _ => Raise ValueError
  end.

(** Broadcasting of one axis. *)
Definition bdim (p q : nat) : option nat :=
  if Nat.eqb p q then Some p
  else if Nat.eqb p 1 then Some q
  else if Nat.eqb q 1 then Some p
  else None.

Definition bidx (p i : nat) : nat := if Nat.eqb p 1 then 0 else i.

(** [a + b] for two 2-dimensional arrays, with numpy's broadcasting. *)
Definition add (a b : ndarray) : result ndarray :=
  match shape a, shape b with
  | [r1; c1], [r2; c2] =>
      match bdim r1 r2, bdim c1 c2 with
      | Some r, Some c =>
          Ok (mk2 r c (fun i j =>
                fadd (get2 a (bidx r1 i) (bidx c1 j))
                     (get2 b (bidx r2 i) (bidx c2 j))))
      | _, _ => Raise ValueError
      end
  | _, _ => Raise ValueError
  end.

(** [v * a] for a 1-dimensional [v] and a 2-dimensional [a]. *)
Definition mul_1d_2d (v a : ndarray) : result ndarray :=
  match shape v, shape a with
  | [k], [r; c] =>
      match bdim k c with
      | Some c' =>
          Ok (mk2 r c' (fun i j =>
                fmul (get1 v (bidx k j)) (get2 a i (bidx c j))))
      | None => Raise ValueError
      end
  | _, _ => Raise ValueError
  end.

(** Elementwise operations with a scalar. *)
Definition amap (f : F -> F) (a : ndarray) : ndarray :=
  mk_nd (shape a) (map f (data a)).

Definition smul (s : F) (a : ndarray) : ndarray := amap (fmul s) a.
Definition divide (a : ndarray) (s : F) : ndarray := amap (fun x => fdiv x s) a.
Definition rdiv (s : F) (a : ndarray) : ndarray := amap (fdiv s) a.
Definition cos (a : ndarray) : ndarray := amap fcos a.
Definition sin (a : ndarray) : ndarray := amap fsin a.

(** [numpy.eye(M)] *)
Definition eye (M : nat) : ndarray :=
  mk2 M M (fun i j => if Nat.eqb i j then of_nat 1 else of_nat 0).

(** [numpy.empty(shape)]: the buffer holds whatever the memory held. *)
Definition empty2 (N D : nat) (junk : nat -> F) : ndarray :=
  mk2 N D (fun i j => junk (i * D + j)).

(** [a[:, n]] of a 2-dimensional array. *)
Definition column (a : ndarray) (n : nat) : result ndarray :=
  match shape a with
  | [r; c] => if Nat.ltb n c then Ok (mk1 r (fun i => get2 a i n))
              else Raise IndexError
  | _ => Raise IndexError
  end.

(** [g[n] = v] on a 2-dimensional [g] and a 1-dimensional [v]. *)
Definition set_row (g : ndarray) (n : nat) (v : ndarray) : result ndarray :=
  match shape g with
  | [r; c] =>
      if Nat.ltb n r
      then if shape_eqb (shape v) [c]
           then Ok (mk2 r c (fun i j =>
                      if Nat.eqb i n then get1 v j else get2 g i j))
           else Raise ValueError
      else Raise IndexError
  | _ => Raise IndexError
  end.

(** [a[0]]: the first item along the first axis. *)
Definition index0 (a : ndarray) : result ndarray :=
  match shape a with
  | [] => Raise IndexError
  | n :: rest =>
      if Nat.eqb n 0 then Raise IndexError
      else Ok (mk_nd rest (firstn (size_of rest) (data a)))
  end.

End Arrays.

Arguments ndarray F : clear implicits.

(** ** Python values, the library and the program state *)

Section Program.

Context {F : Type} `{Scalar F}.

Local Abbreviation array := (ndarray F).

(** [kernel_nu] is any Python number or array: [numpy.isscalar] tells a
    Python or numpy scalar from an array (also a 0-dimensional one). *)
Inductive pyval : Type :=
| PyScalar (x : F)
| PyArray (a : array).

Definition isscalar (v : pyval) : bool :=
  match v with PyScalar _ => true | PyArray _ => false end.

(** The truth value that [if p(v):] takes for an elementwise test [p]: an
    array of one element stands for that element, an empty array is false
    (with a deprecation warning in the numpy of this code's time), any
    other array has no truth value and raises ValueError. *)
Definition truth (p : F -> bool) (v : pyval) : result bool :=
  match v with
  | PyScalar x => Ok (p x)
  | PyArray a =>
      match data a with
      | [] => Ok false
      | [x] => Ok (p x)
      | _ => Raise ValueError
      end
  end.

(** The library calls the program issues. *)
Inductive call : Type :=
| call_normal (loc : F) (scale : array) (size : list nat)
| call_t_rvs (df : pyval) (loc : F) (scale : array) (size : list nat)
| call_uniform (low high : F) (size : list nat)
| call_multivariate_normal (mean cov : array)
| call_cho_factor (A : array)
| call_cho_solve (c b : array)
| call_inv (A : array).

Definition is_call_inv (c : call) : bool :=
  match c with call_inv _ => true | _ => false end.

Variable G : Type.   (* the state of the global random generator *)

(** numpy.random, scipy.stats and scipy.linalg as the program uses them. *)
Record Library : Type := {
  random_normal : F -> array -> list nat -> G -> result array * G;
  stats_t_rvs :
    pyval -> F -> array -> list nat -> G -> result array * G;
  random_uniform : F -> F -> list nat -> G -> result array * G;
  random_multivariate_normal :
    array -> array -> G -> result array * G;
  linalg_cho_factor : array -> result array;
  linalg_cho_solve : array -> array -> result array;
  linalg_inv : array -> result array
}.

Record world : Type := {
  gen : G;                 (* generator state *)
  trace : list call;       (* library calls so far, oldest first *)
  uninit : nat -> F        (* contents of memory handed out uninitialised *)
}.

Definition log (c : call) (g : G) (w : world) : world :=
  {| gen := g; trace := trace w ++ [c]; uninit := uninit w |}.

Variable lib : Library.

Definition np_random_normal loc scale size : SE world array :=
  fun w => let (r, g) := random_normal lib loc scale size (gen w) in
           (r, log (call_normal loc scale size) g w).

Definition scipy_stats_t_rvs df loc scale size : SE world array :=
  fun w => let (r, g) := stats_t_rvs lib df loc scale size (gen w) in
           (r, log (call_t_rvs df loc scale size) g w).

Definition np_random_uniform low high size : SE world array :=
  fun w => let (r, g) := random_uniform lib low high size (gen w) in
           (r, log (call_uniform low high size) g w).

Definition np_random_multivariate_normal mean cov : SE world array :=
  fun w => let (r, g) := random_multivariate_normal lib mean cov (gen w) in
           (r, log (call_multivariate_normal mean cov) g w).

Definition cho_factor A : SE world array :=
  fun w => (linalg_cho_factor lib A, log (call_cho_factor A) (gen w) w).

Definition cho_solve c b : SE world array :=
  fun w => (linalg_cho_solve lib c b, log (call_cho_solve c b) (gen w) w).

Definition inv A : SE world array :=
  fun w => (linalg_inv lib A, log (call_inv A) (gen w) w).

(** [a.shape[0]] *)
Definition shape0 (a : array) : result nat :=
  match shape a with
  | [] => Raise IndexError
  | n :: _ => Ok n
  end.

(** ** [_compute_inverse] (lines 15-26) *)

Definition _compute_inverse (A : array) : SE world array :=
  try_except
    (A_cholesky <- cho_factor A ;;
     n <- lift (shape0 A) ;;
     A_inverse <- cho_solve A_cholesky (eye n) ;;
     ret A_inverse)
    LinAlgError
    (A_inverse <- inv A ;;
     ret A_inverse).

(** ** The captured variables and the state a returned callable runs in *)

Record env : Type := {
  env_W : array;
  env_B : array;
  env_sample_of_theta : array;
  env_sqrt_2_alpha_over_m : F;
  env_M : nat;
  env_D : nat
}.

Record cstate : Type := { captured : env; outer : world }.

Definition read {A} (f : env -> A) : SE cstate A :=
  fun cs => (Ok (f (captured cs)), cs).

Definition np_empty2 (N D : nat) : SE cstate array :=
  fun cs => (Ok (empty2 N D (uninit (outer cs))), cs).

(** Line 171: [sqrt_2_alpha_over_m*numpy.cos(numpy.dot(W, x.T) + B)] *)
Definition phi_x_of (s : F) (W x B : array) : result array :=
  rbind (dot W (transpose x)) (fun d =>
  rbind (add d B) (fun e =>
  Ok (smul s (cos e)))).

(** ** [rff_approximation] (lines 156-175) *)

Definition rff_approximation (x : array) : SE cstate array :=
  N <- lift (shape0 x) ;;
  D <- read env_D ;;
  assert_ (shape_eqb (shape x) [N; D]) ;;;
  s <- read env_sqrt_2_alpha_over_m ;;
  W <- read env_W ;;
  B <- read env_B ;;
  phi_x <- lift (phi_x_of s W x B) ;;
  M <- read env_M ;;
  assert_ (shape_eqb (shape phi_x) [M; N]) ;;;
  sample_of_theta <- read env_sample_of_theta ;;
  approx_y <- lift (dot (transpose phi_x) sample_of_theta) ;;
  assert_ (shape_eqb (shape approx_y) [N]) ;;;
  ret approx_y.

(** Line 192: [numpy.sin(numpy.dot(W, x.T) + B)] *)
Definition temp_of (W x B : array) : result array :=
  rbind (dot W (transpose x)) (fun d =>
  rbind (add d B) (fun e =>
  Ok (sin e))).

(** ** [rff_approximation_gradient] (lines 177-199) *)

Definition rff_approximation_gradient (x : array) : SE cstate array :=
  N <- lift (shape0 x) ;;
  D <- read env_D ;;
  assert_ (shape_eqb (shape x) [N; D]) ;;;
  W <- read env_W ;;
  B <- read env_B ;;
  temp <- lift (temp_of W x B) ;;
  M <- read env_M ;;
  assert_ (shape_eqb (shape temp) [M; N]) ;;;
  gradient <- np_empty2 N D ;;
  gradient <- for_range (seq 0 N) (fun n gradient =>
      s <- read env_sqrt_2_alpha_over_m ;;
      temp_n <- lift (column temp n) ;;
      W <- read env_W ;;
      gradient_of_phi_x <-
        lift (mul_1d_2d (smul (fneg s) temp_n) (transpose W)) ;;
      sample_of_theta <- read env_sample_of_theta ;;
      row <- lift (dot gradient_of_phi_x sample_of_theta) ;;
      lift (set_row gradient n row)) gradient ;;
  ret gradient.

(** ** [_vectorize] (lines 29-40) *)

Definition _vectorize (fun_ : array -> SE cstate array) (x : array)
  : SE cstate array :=
  let x2d := atleast_2d x in
  if Nat.eqb (ndim x) 1
  then r <- fun_ x2d ;; lift (index0 r)
  else fun_ x2d.

(** [numba.njit] compiles a function and keeps its meaning. *)
Definition njit (f : array -> SE cstate array) := f.

(** The three callables that [sample_rff] returns (lines 207-211). *)
Definition f_rff := _vectorize rff_approximation.
Definition f_rff_njit := _vectorize (njit rff_approximation).
Definition g_rff_njit := _vectorize (njit rff_approximation_gradient).

(** Running a closure over [e] while [sample_rff] is still executing. *)
Definition in_closure {A} (e : env) (m : SE cstate A) : SE world A :=
  fun w => let (r, cs) := m {| captured := e; outer := w |} in (r, outer cs).

(** ** [sample_rff] (lines 43-211)

    The number of features [M] is a natural number.  The function returns
    its three callables; here it returns the variables they capture, from
    which [f_rff], [f_rff_njit] and [g_rff_njit] above are run. *)

Record checked : Type := {
  chk_X : array;
  chk_Y : array;
  chk_lengthscales : array;
  chk_D : nat;
  chk_N_obs : nat
}.

(** Lines 107-122: check inputs. *)
Definition check_inputs (lengthscales scaling noise : array)
  (kernel_nu : pyval) (X Y : array) : result checked :=
  let X := atleast_2d X in
  let Y := atleast_1d Y in
  let D := nth 1 (shape X) 0 in
  let N_obs := nth 0 (shape Y) 0 in
  let lengthscales := atleast_1d lengthscales in
  if negb (shape_eqb (shape X) [N_obs; D]) then Raise ShapeError
  else if negb (shape_eqb (shape lengthscales) [D]) then Raise ShapeError
  else if negb (Nat.eqb (ndim scaling) 0) then Raise ShapeError
  else if negb (Nat.eqb (ndim noise) 0) then Raise ShapeError
  else
    rbind (if negb (isscalar kernel_nu) then truth fgt0 kernel_nu
           else Ok false) (fun c =>
    if c then Raise DtypeError
    else Ok {| chk_X := X; chk_Y := Y; chk_lengthscales := lengthscales;
               chk_D := D; chk_N_obs := N_obs |}).

(** Lines 124-135: the spectral frequencies [W] and the phases [B]. *)
Definition sample_W_B (kernel_nu : pyval) (lengthscales : array)
  (M D : nat) : SE world (array * array) :=
  isinf <- lift (truth fisinf kernel_nu) ;;
  let p_w (size : list nat) : SE world array :=
    if (isinf : bool)
    then np_random_normal (of_nat 0) (rdiv (of_nat 1) lengthscales) size
    else scipy_stats_t_rvs kernel_nu (of_nat 0)
           (rdiv (of_nat 1) lengthscales) size in
  W <- p_w [M; D] ;;
  assert_ (shape_eqb (shape W) [M; D]) ;;;
  B <- np_random_uniform (of_nat 0) (fmul (of_nat 2) fpi) [M; 1] ;;
  assert_ (shape_eqb (shape B) [M; 1]) ;;;
  ret (W, B).

(** Lines 137-139. *)
Definition sqrt_2_alpha_over_m_of (scaling : array) (M : nat) : F :=
  let alpha := fpow2 (item scaling) in
  fsqrt (fdiv (fmul (of_nat 2) alpha) (of_nat M)).

(** Line 141: [sqrt_2_alpha_over_m * numpy.cos(numpy.dot(W, X.T) + B)] *)
Definition zeta_of (s : F) (W X B : array) : result array :=
  rbind (dot W (transpose X)) (fun d =>
  rbind (add d B) (fun e =>
  Ok (smul s (cos e)))).

(** Lines 144-150: the posterior of theta, as (mean, variance). *)
Definition posterior_of_theta (zeta Y : array) (noise : array) (M : nat)
  : SE world (array * array) :=
  zzT <- lift (dot zeta (transpose zeta)) ;;
  A <- lift (add (divide zzT (item noise)) (eye M)) ;;
  A_inverse <- _compute_inverse A ;;
  assert_ (shape_eqb (shape A_inverse) [M; M]) ;;;
  Az <- lift (dot A_inverse zeta) ;;
  AzY <- lift (dot Az Y) ;;
  let mean_of_post_theta := divide AzY (item noise) in
  assert_ (shape_eqb (shape mean_of_post_theta) [M]) ;;;
  let variance_of_post_theta := A_inverse in
  assert_ (shape_eqb (shape variance_of_post_theta) [M; M]) ;;;
  ret (mean_of_post_theta, variance_of_post_theta).

Definition sample_rff (lengthscales scaling noise : array)
  (kernel_nu : pyval) (X Y : array) (M : nat) : SE world env :=
  c <- lift (check_inputs lengthscales scaling noise kernel_nu X Y) ;;
  let X := chk_X c in
  let Y := chk_Y c in
  let D := chk_D c in
  let N_obs := chk_N_obs c in
  WB <- sample_W_B kernel_nu (chk_lengthscales c) M D ;;
  let W := fst WB in
  let B := snd WB in
  let sqrt_2_alpha_over_m := sqrt_2_alpha_over_m_of scaling M in
  zeta <- lift (zeta_of sqrt_2_alpha_over_m W X B) ;;
  assert_ (shape_eqb (shape zeta) [M; N_obs]) ;;;
  post <- posterior_of_theta zeta Y noise M ;;
  sample_of_theta <- np_random_multivariate_normal (fst post) (snd post) ;;
  assert_ (shape_eqb (shape sample_of_theta) [M]) ;;;
  let e := {| env_W := W; env_B := B;
              env_sample_of_theta := sample_of_theta;
              env_sqrt_2_alpha_over_m := sqrt_2_alpha_over_m;
              env_M := M; env_D := D |} in
  X0 <- lift (index0 X) ;;
  let X_test := mk2 2 D (fun _ j => get1 X0 j) in
  y <- in_closure e (rff_approximation X_test) ;;
  assert_ (shape_eqb (shape y) [2]) ;;;
  g <- in_closure e (rff_approximation_gradient X_test) ;;
  assert_ (shape_eqb (shape g) [2; D]) ;;;
  ret e.

End Program.

Arguments pyval F : clear implicits.
Arguments call F : clear implicits.
Arguments Library F G : clear implicits.
Arguments world F G : clear implicits.
Arguments env F : clear implicits.
Arguments cstate F G : clear implicits.
Arguments checked F : clear implicits.

(** ** The specification's formulas

    These definitions follow the wording of the specification; the
    theorems below compare them with what the code computes. *)

Section Specification.

Context {F : Type} `{Scalar F}.

(** The inner product of two rows of length [D]. *)
Definition inner (D : nat) (u v : nat -> F) : F :=
  fsum (map (fun d => fmul (u d) (v d)) (seq 0 D)).

(** Entry (m, n) of  phi(x) = sqrt(2 alpha / M) * cos(W x^T + B). *)
Definition phi_entry (alpha : F) (M D : nat) (W B x : ndarray F) (m n : nat)
  : F :=
  fmul (fsqrt (fdiv (fmul (of_nat 2) alpha) (of_nat M)))
       (fcos (fadd (inner D (get2 W m) (get2 x n)) (get2 B m 0))).

Definition phi_spec (alpha : F) (M D N : nat) (W B x : ndarray F)
  : ndarray F :=
  mk2 M N (phi_entry alpha M D W B x).

(** Entry n of  f(x) = phi(x)^T theta. *)
Definition f_entry (alpha : F) (M D : nat) (W B theta x : ndarray F) (n : nat)
  : F :=
  inner M (fun m => phi_entry alpha M D W B x m n) (get1 theta).

(** Entry (n, d) of the gradient:
    ((-sqrt(2 alpha / M) * sin(W x_n + B)) (.) W)^T theta. *)
Definition grad_entry (alpha : F) (M D : nat) (W B theta x : ndarray F)
  (n d : nat) : F :=
  inner M
    (fun m =>
       fmul (fmul (fneg (fsqrt (fdiv (fmul (of_nat 2) alpha) (of_nat M))))
                  (fsin (fadd (inner D (get2 W m) (get2 x n)) (get2 B m 0))))
            (get2 W m d))
    (get1 theta).

(** A = zeta zeta^T / noise + I_M *)
Definition A_spec (zeta : ndarray F) (noise : F) (M N : nat) : ndarray F :=
  mk2 M M (fun i j =>
    fadd (fdiv (inner N (get2 zeta i) (get2 zeta j)) noise)
         (if Nat.eqb i j then of_nat 1 else of_nat 0)).

(** The posterior mean  A^-1 zeta Y / noise. *)
Definition mean_spec (A_inverse zeta Y : ndarray F) (noise : F) (M N : nat)
  : ndarray F :=
  mk1 M (fun i =>
    fdiv (inner N
            (fun n => inner M (get2 A_inverse i) (fun k => get2 zeta k n))
            (get1 Y))
         noise).

End Specification.

(** ** Notions the statements use *)

Section Notions.

Context {F : Type} `{Scalar F}.
Variable G : Type.
Variable lib : Library F G.

Local Abbreviation array := (ndarray F).

(** The shapes [sample_rff] asserts of what its closures capture. *)
Definition env_ok (e : env F) : Prop :=
  shape (env_W e) = [env_M e; env_D e] /\
  shape (env_B e) = [env_M e; 1] /\
  shape (env_sample_of_theta e) = [env_M e].

(** What [rff_approximation] returns on a 2-dimensional input. *)
Definition approx_value (e : env F) (x : array) (N : nat) : array :=
  mk1 N (fun n =>
    inner (env_M e)
      (fun m => fmul (env_sqrt_2_alpha_over_m e)
                  (fcos (fadd (inner (env_D e) (get2 (env_W e) m) (get2 x n))
                              (get2 (env_B e) m 0))))
      (get1 (env_sample_of_theta e))).

(** What [rff_approximation_gradient] returns on a 2-dimensional input. *)
Definition gradient_entry (e : env F) (x : array) (n d : nat) : F :=
  inner (env_M e)
    (fun m =>
       fmul (fmul (fneg (env_sqrt_2_alpha_over_m e))
                  (fsin (fadd (inner (env_D e) (get2 (env_W e) m) (get2 x n))
                              (get2 (env_B e) m 0))))
            (get2 (env_W e) m d))
    (get1 (env_sample_of_theta e)).

Definition gradient_value (e : env F) (x : array) (N : nat) : array :=
  mk2 N (env_D e) (gradient_entry e x).

(** The first attempt: the body of the [try]. *)
Definition cholesky_route (A : array) : SE (world F G) array :=
  A_cholesky <- cho_factor lib A ;;
  n <- lift (shape0 A) ;;
  A_inverse <- cho_solve lib A_cholesky (eye n) ;;
  ret A_inverse.

(** How many general inversions a log holds. *)
Definition count_inv (t : list (call F)) : nat :=
  length (filter is_call_inv t).

(** What numpy and scipy promise of the three samplers the program calls:
    [numpy.random.normal] accepts any scale without a negative entry,
    [scipy.stats.t.rvs] moreover wants positive degrees of freedom, and
    both, like [numpy.random.uniform] on [0, 2 pi), return an array of the
    requested size. *)
Record library_contract : Prop := {
  normal_ok : forall loc scale size g,
    Forall (fun s => fge0 s = true) (data scale) ->
    shape scale = [last size 1] ->
    exists a g', random_normal lib loc scale size g = (Ok a, g') /\
                 shape a = size;
  t_rvs_ok : forall nu loc scale size g,
    fgt0 nu = true ->
    Forall (fun s => fge0 s = true) (data scale) ->
    shape scale = [last size 1] ->
    exists a g', stats_t_rvs lib (PyScalar nu) loc scale size g = (Ok a, g') /\
                 shape a = size;
  uniform_ok : forall size g,
    exists a g',
      random_uniform lib (of_nat 0) (fmul (of_nat 2) fpi) size g = (Ok a, g') /\
      shape a = size
}.

(** The request [sample_rff] makes for [W]. *)
Definition W_request (nu : F) (lengthscales : array) (M D : nat) : call F :=
  if fisinf nu
  then call_normal (of_nat 0) (rdiv (of_nat 1) lengthscales) [M; D]
  else call_t_rvs (PyScalar nu) (of_nat 0) (rdiv (of_nat 1) lengthscales)
         [M; D].

Definition B_request (M : nat) : call F :=
  call_uniform (of_nat 0) (fmul (of_nat 2) fpi) [M; 1].

(** The library's answer to a request for random numbers. *)
Definition answer (c : call F) (g : G) : result array * G :=
  match c with
  | call_normal loc scale size => random_normal lib loc scale size g
  | call_t_rvs df loc scale size => stats_t_rvs lib df loc scale size g
  | call_uniform low high size => random_uniform lib low high size g
  | call_multivariate_normal mean cov =>
      random_multivariate_normal lib mean cov g
  | _ => (Raise ValueError, g)
  end.

(** A computation that leaves its state alone. *)
Definition readonly {St A} (m : SE St A) : Prop :=
  forall s, snd (m s) = s.

(** A closure computation whose result depends on the captured variables
    only: neither on the generator, nor on the log, nor on what
    uninitialised memory holds. *)
Definition env_only {A} (m : SE (cstate F G) A) : Prop :=
  forall cs1 cs2, captured cs1 = captured cs2 -> fst (m cs1) = fst (m cs2).

Definition pure_callable (fn : array -> SE (cstate F G) array) : Prop :=
  forall x, readonly (fn x) /\ env_only (fn x).

End Notions.

(** ** Further notions: indexing, and what is asked of the library *)

Section FurtherNotions.

Context {F : Type} `{Scalar F}.
Variable G : Type.
Variable lib : Library F G.

Local Abbreviation array := (ndarray F).

(** [a[n]] for a non-negative [n]: item [n] along the first axis. *)
Definition row (a : array) (n : nat) : result array :=
  match shape a with
  | [] => Raise IndexError
  | n0 :: rest =>
      if Nat.ltb n n0
      then Ok (mk_nd rest
                 (firstn (size_of rest) (skipn (n * size_of rest) (data a))))
      else Raise IndexError
  end.





(** The four shape conditions of the input check, on the normalised
    arrays. *)
Definition shapes_accepted (lengthscales scaling noise X Y : array) : Prop :=
  shape (atleast_2d X)
  = [nth 0 (shape (atleast_1d Y)) 0; nth 1 (shape (atleast_2d X)) 0] /\
  shape (atleast_1d lengthscales) = [nth 1 (shape (atleast_2d X)) 0] /\
  ndim scaling = 0 /\
  ndim noise = 0.

End FurtherNotions.

(** ** A concrete carrier: symbolic scalars

    Every float is named by the expression that produced it, so running the
    program shows the formula it computes.  Signs are decided where the
    expression determines them; a comparison of unknown sign is false. *)

Inductive sym : Type :=
| SLit (z : Z)
| SInf
| SNan
| SPi
| SRand (k : nat)            (* the k-th number the generator handed out *)
| SLinalg (tag i : nat)      (* entry i of the result of a scipy.linalg call *)
| SJunk (k : nat)            (* uninitialised memory *)
| SAdd (a b : sym)
| SMul (a b : sym)
| SDiv (a b : sym)
| SNeg (a : sym)
| SPow2 (a : sym)
| SSqrt (a : sym)
| SCos (a : sym)
| SSin (a : sym).

Definition sign_mul (x y : comparison) : comparison :=
  match x, y with
  | Eq, _ | _, Eq => Eq
  | Lt, Lt | Gt, Gt => Gt
  | _, _ => Lt
  end.

Fixpoint sign (s : sym) : option comparison :=
  match s with
  | SLit z => Some (Z.compare z 0)
  | SInf | SPi => Some Gt
  | SNeg a => option_map CompOpp (sign a)
  | SMul a b =>
      match sign a, sign b with
      | Some x, Some y => Some (sign_mul x y)
      | _, _ => None
      end
  | SDiv a b =>
      match sign a, sign b with
      | Some x, Some Lt => Some (sign_mul x Lt)
      | Some x, Some Gt => Some (sign_mul x Gt)
      | _, _ => None
      end
  | SPow2 a => match sign a with Some Eq => Some Eq | Some _ => Some Gt | None => None end
  | _ => None
  end.

Definition sym_isinf (s : sym) : bool :=
  match s with SInf | SNeg SInf => true | _ => false end.

Definition sym_gt0 (s : sym) : bool :=
  match sign s with Some Gt => true | _ => false end.

Definition sym_ge0 (s : sym) : bool :=
  match sign s with Some Gt | Some Eq => true | _ => false end.

#[export] Instance sym_scalar : Scalar sym := {|
  of_nat n := SLit (Z.of_nat n);
  fadd := SAdd; fmul := SMul; fdiv := SDiv; fneg := SNeg;
  fpow2 := SPow2; fsqrt := SSqrt; fcos := SCos; fsin := SSin;
  fpi := SPi;
  fisinf := sym_isinf; fgt0 := sym_gt0; fge0 := sym_ge0
|}.

(** A reference library over the symbolic scalars.  The generator state
    counts the numbers handed out.  The samplers refuse what numpy and
    scipy refuse: a negative scale, degrees of freedom that are not
    positive, operands of the wrong shape.  [chol] and [general] say
    whether the Cholesky route and the general inversion succeed. *)

Definition fresh (size : list nat) (g : nat) : ndarray sym :=
  mk_nd size (map (fun i => SRand (g + i)) (seq 0 (size_of size))).

Definition scale_fits (scale : ndarray sym) (size : list nat) : bool :=
  match shape scale with
  | [] => true
  | [d] => Nat.eqb d 1 || Nat.eqb d (last size 1)
  | _ => false
  end.

Definition ref_normal (loc : sym) (scale : ndarray sym) (size : list nat)
  (g : nat) : result (ndarray sym) * nat :=
  if forallb sym_ge0 (data scale) && scale_fits scale size
  then (Ok (fresh size g), g + size_of size)
  else (Raise ValueError, g).

Definition ref_t_rvs (df : pyval sym) (loc : sym) (scale : ndarray sym)
  (size : list nat) (g : nat) : result (ndarray sym) * nat :=
  match df with
  | PyScalar nu =>
      if sym_gt0 nu && forallb sym_ge0 (data scale) && scale_fits scale size
      then (Ok (fresh size g), g + size_of size)
      else (Raise ValueError, g)
  | PyArray _ => (Raise ValueError, g)
  end.

Definition ref_uniform (low high : sym) (size : list nat) (g : nat)
  : result (ndarray sym) * nat :=
  (Ok (fresh size g), g + size_of size).

Definition ref_multivariate_normal (mean cov : ndarray sym) (g : nat)
  : result (ndarray sym) * nat :=
  match shape mean, shape cov with
  | [n], [r; c] =>
      if Nat.eqb n r && Nat.eqb n c
      then (Ok (fresh [n] g), g + n)
      else (Raise ValueError, g)
  | _, _ => (Raise ValueError, g)
  end.

Definition linalg_result (tag : nat) (sh : list nat) : ndarray sym :=
  mk_nd sh (map (SLinalg tag) (seq 0 (size_of sh))).

Definition ref_cho_factor (chol : bool) (A : ndarray sym)
  : result (ndarray sym) :=
  match shape A with
  | [r; c] => if Nat.eqb r c
              then if chol then Ok (linalg_result 0 [r; c])
                   else Raise LinAlgError
              else Raise ValueError
  | _ => Raise ValueError
  end.

Definition ref_cho_solve (c b : ndarray sym) : result (ndarray sym) :=
  match shape c, shape b with
  | [r; _], [r'; k] => if Nat.eqb r r' then Ok (linalg_result 1 [r; k])
                       else Raise ValueError
  | _, _ => Raise ValueError
  end.

Definition ref_inv (general : bool) (A : ndarray sym) : result (ndarray sym) :=
  match shape A with
  | [r; c] => if Nat.eqb r c
              then if general then Ok (linalg_result 2 [r; c])
                   else Raise LinAlgError
              else Raise ValueError
  | _ => Raise ValueError
  end.

Definition ref_lib (chol general : bool) : Library sym nat := {|
  random_normal := ref_normal;
  stats_t_rvs := ref_t_rvs;
  random_uniform := ref_uniform;
  random_multivariate_normal := ref_multivariate_normal;
  linalg_cho_factor := ref_cho_factor chol;
  linalg_cho_solve := ref_cho_solve;
  linalg_inv := ref_inv general
|}.

Definition w0 : world sym nat :=
  {| gen := 0; trace := []; uninit := SJunk |}.

Definition vec (l : list Z) : ndarray sym := mk_nd [length l] (map SLit l).
Definition num (z : Z) : ndarray sym := mk_nd [] [SLit z].

(** Concrete inputs for the worked examples: two observations in two
    dimensions, two features, and what the reference library then makes
    [sample_rff] return. *)
Definition X0 : ndarray sym := mk_nd [2; 2] (map SLit [0; 1; 2; 3]%Z).
Definition Y0 : ndarray sym := vec [5; 7]%Z.
Definition ls0 : ndarray sym := vec [1; 2]%Z.
Definition matern32 : sym := SDiv (SLit 3) (SLit 2).

Definition run0 : result (env sym) * world sym nat :=
  sample_rff (ref_lib true true) ls0 (num 1) (num 1) (PyScalar SInf) X0 Y0 2 w0.

Definition e0 : env sym :=
  Eval vm_compute in
    match fst run0 with
    | Ok e => e
    | Raise _ =>
        {| env_W := num 0; env_B := num 0; env_sample_of_theta := num 0;
           env_sqrt_2_alpha_over_m := SNan; env_M := 0; env_D := 0 |}
    end.

Definition w1 : world sym nat := Eval vm_compute in snd run0.

Definition cs0 : cstate sym nat := {| captured := e0; outer := w1 |}.

Definition x1 : ndarray sym := vec [4; 6]%Z.

Definition c0 : checked sym :=
  {| chk_X := X0; chk_Y := Y0; chk_lengthscales := ls0;
     chk_D := 2; chk_N_obs := 2 |}.

Definition zeta1 : ndarray sym := mk_nd [2; 1] [SRand 0; SRand 1].
Definition Y1 : ndarray sym := vec [5]%Z.
Definition A_inverse1 : ndarray sym := linalg_result 1 [2; 2].
Definition w2 : world sym nat :=
  Eval vm_compute in
    snd (_compute_inverse (ref_lib true true)
           (A_spec zeta1 (item (num 1)) 2 1) w0).

(** Further inputs: a one-dimensional problem, a 2-dimensional Y, a
    square embedding, and the states the reference library leaves. *)
Definition run1 : result (env sym) * world sym nat :=
  sample_rff (ref_lib true true) (vec [1]%Z) (num 1) (num 1) (PyScalar SInf)
    (mk_nd [1; 1] [SLit 3]) (vec [5]%Z) 1 w0.

Definition e1 : env sym :=
  Eval vm_compute in
    match fst run1 with
    | Ok e => e
    | Raise _ =>
        {| env_W := num 0; env_B := num 0; env_sample_of_theta := num 0;
           env_sqrt_2_alpha_over_m := SNan; env_M := 0; env_D := 0 |}
    end.

Definition cs1 : cstate sym nat := {| captured := e1; outer := w0 |}.

Definition Y2 : ndarray sym := mk_nd [2; 2] (map SLit [5; 6; 7; 8]%Z).
Definition zeta2 : ndarray sym :=
  mk_nd [2; 2] [SRand 0; SRand 1; SRand 2; SRand 3].

Definition w3 : world sym nat :=
  Eval vm_compute in
    snd (_compute_inverse (ref_lib true true)
           (A_spec zeta2 (item (num 1)) 2 2) w0).

Definition w4 : world sym nat :=
  Eval vm_compute in
    snd (_compute_inverse (ref_lib false false)
           (A_spec zeta1 (item (num 1)) 2 1) w0).

Definition w5 : world sym nat :=
  Eval vm_compute in
    snd (sample_W_B (ref_lib true true) (PyScalar SInf) ls0 2 2 w0).

(** * Facts about arrays *)

Lemma shape_eqb_true (s t : list nat) : shape_eqb s t = true <-> s = t.
Proof.
  unfold shape_eqb. destruct (list_eq_dec Nat.eq_dec s t); split;
    intros; congruence.
Qed.

Lemma shape_eqb_refl (s : list nat) : shape_eqb s s = true.
Proof. now apply shape_eqb_true. Qed.

Lemma shape_eqb_false (s t : list nat) : s <> t -> shape_eqb s t = false.
Proof.
  intros Hn. destruct (shape_eqb s t) eqn:E; [|reflexivity].
  apply shape_eqb_true in E. contradiction.
Qed.

Lemma bidx_lt (p i : nat) : i < p -> bidx p i = i.
Proof.
  unfold bidx. destruct (Nat.eqb_spec p 1); intros; lia.
Qed.

Lemma bdim_same (p : nat) : bdim p p = Some p.
Proof. unfold bdim. now rewrite Nat.eqb_refl. Qed.

Lemma bdim_one_r (p : nat) : bdim p 1 = Some p.
Proof.
  unfold bdim. destruct (Nat.eqb_spec p 1); [congruence|].
  reflexivity.
Qed.

Section ArrayFacts.

Context {F : Type} `{Scalar F}.

Local Abbreviation array := (ndarray F).

Lemma nth_rows (f : nat -> nat -> F) (c : nat) (d : F) :
  forall r s i j, i < r -> j < c ->
    nth (i * c + j) (flat_map (fun i => map (f i) (seq 0 c)) (seq s r)) d
    = f (s + i) j.
Proof.
  induction r as [|r IH]; intros s i j Hi Hj; [lia|].
  cbn [seq flat_map].
  destruct i as [|i].
  - rewrite app_nth1 by (rewrite length_map, length_seq; lia).
    cbn [Nat.mul Nat.add].
    rewrite nth_indep with (d' := f s 0)
      by (rewrite length_map, length_seq; lia).
    rewrite map_nth, seq_nth by lia. f_equal; lia.
  - rewrite app_nth2 by (rewrite length_map, length_seq; lia).
    rewrite length_map, length_seq.
    replace (S i * c + j - c) with (i * c + j) by lia.
    rewrite IH by lia. f_equal; lia.
Qed.

Lemma length_rows (f : nat -> nat -> F) (c : nat) :
  forall r s,
    length (flat_map (fun i => map (f i) (seq 0 c)) (seq s r)) = r * c.
Proof.
  induction r as [|r IH]; intros s; [reflexivity|].
  cbn [seq flat_map]. rewrite length_app, length_map, length_seq, IH. lia.
Qed.

Lemma get2_mk2 (r c : nat) (f : nat -> nat -> F) (i j : nat) :
  i < r -> j < c -> get2 (mk2 r c f) i j = f i j.
Proof.
  intros Hi Hj. unfold get2, mk2. cbn [shape data nth].
  now rewrite nth_rows.
Qed.

Lemma get1_mk1 (n : nat) (f : nat -> F) (i : nat) :
  i < n -> get1 (mk1 n f) i = f i.
Proof.
  intros Hi. unfold get1, mk1. cbn [data].
  rewrite nth_indep with (d' := f 0) by (rewrite length_map, length_seq; lia).
  now rewrite map_nth, seq_nth.
Qed.

Lemma wf_mk2 (r c : nat) (f : nat -> nat -> F) : wf (mk2 r c f).
Proof.
  unfold wf, mk2. cbn [shape data size_of fold_right].
  rewrite length_rows. lia.
Qed.

Lemma wf_mk1 (n : nat) (f : nat -> F) : wf (mk1 n f).
Proof.
  unfold wf, mk1. cbn [shape data size_of fold_right].
  rewrite length_map, length_seq. lia.
Qed.

Lemma mk1_ext (n : nat) (f g : nat -> F) :
  (forall i, i < n -> f i = g i) -> mk1 n f = mk1 n g.
Proof.
  intros E. unfold mk1. f_equal. apply map_ext_in.
  intros i Hi. apply in_seq in Hi. apply E. lia.
Qed.

Lemma rows_ext (f g : nat -> nat -> F) (c : nat) (l : list nat) :
  (forall i j, In i l -> j < c -> f i j = g i j) ->
  flat_map (fun i => map (f i) (seq 0 c)) l
  = flat_map (fun i => map (g i) (seq 0 c)) l.
Proof.
  induction l as [|a l IH]; intros E; [reflexivity|].
  cbn [flat_map]. f_equal.
  - apply map_ext_in. intros j Hj. apply in_seq in Hj.
    apply E; [now left | lia].
  - apply IH. intros i j Hi Hj. apply E; [now right | exact Hj].
Qed.

Lemma mk2_ext (r c : nat) (f g : nat -> nat -> F) :
  (forall i j, i < r -> j < c -> f i j = g i j) -> mk2 r c f = mk2 r c g.
Proof.
  intros E. unfold mk2. f_equal. apply rows_ext.
  intros i j Hi Hj. apply in_seq in Hi. apply E; lia.
Qed.

Lemma inner_ext (D : nat) (u u' v v' : nat -> F) :
  (forall d, d < D -> u d = u' d) -> (forall d, d < D -> v d = v' d) ->
  inner D u v = inner D u' v'.
Proof.
  intros Eu Ev. unfold inner. f_equal. apply map_ext_in.
  intros d Hd. apply in_seq in Hd. rewrite Eu, Ev by lia. reflexivity.
Qed.

Lemma amap_mk1 (h : F -> F) (n : nat) (f : nat -> F) :
  amap h (mk1 n f) = mk1 n (fun i => h (f i)).
Proof. unfold amap, mk1. cbn [shape data]. now rewrite map_map. Qed.

Lemma amap_mk2 (h : F -> F) (r c : nat) (f : nat -> nat -> F) :
  amap h (mk2 r c f) = mk2 r c (fun i j => h (f i j)).
Proof.
  unfold amap, mk2. cbn [shape data]. f_equal.
  generalize (seq 0 r) as l. induction l as [|a l IH]; [reflexivity|].
  cbn [flat_map]. now rewrite map_app, map_map, IH.
Qed.

Lemma transpose_2d (a : array) (r c : nat) :
  shape a = [r; c] -> transpose a = mk2 c r (fun i j => get2 a j i).
Proof. intros E. unfold transpose. now rewrite E. Qed.

Lemma dot_2d_2d (a b : array) (m k n : nat) :
  shape a = [m; k] -> shape b = [k; n] ->
  dot a b = Ok (mk2 m n (fun i j => inner k (get2 a i) (fun l => get2 b l j))).
Proof.
  intros Ea Eb. unfold dot. rewrite Ea, Eb, Nat.eqb_refl. reflexivity.
Qed.

Lemma dot_2d_1d (a b : array) (m k : nat) :
  shape a = [m; k] -> shape b = [k] ->
  dot a b = Ok (mk1 m (fun i => inner k (get2 a i) (get1 b))).
Proof.
  intros Ea Eb. unfold dot. rewrite Ea, Eb, Nat.eqb_refl. reflexivity.
Qed.

Lemma add_column (a b : array) (r c : nat) :
  shape a = [r; c] -> shape b = [r; 1] ->
  add a b = Ok (mk2 r c (fun i j => fadd (get2 a i j) (get2 b i 0))).
Proof.
  intros Ea Eb. unfold add. rewrite Ea, Eb, bdim_same, bdim_one_r.
  f_equal. apply mk2_ext. intros i j Hi Hj.
  rewrite !(bidx_lt Hi), (bidx_lt Hj). reflexivity.
Qed.

Lemma add_same (a b : array) (r c : nat) :
  shape a = [r; c] -> shape b = [r; c] ->
  add a b = Ok (mk2 r c (fun i j => fadd (get2 a i j) (get2 b i j))).
Proof.
  intros Ea Eb. unfold add. rewrite Ea, Eb, !bdim_same.
  f_equal. apply mk2_ext. intros i j Hi Hj.
  rewrite !(bidx_lt Hi), !(bidx_lt Hj). reflexivity.
Qed.

End ArrayFacts.

(** * Facts about the program *)

Section ProgramFacts.

Context {F : Type} `{Scalar F}.
Variable G : Type.
Variable lib : Library F G.

Local Abbreviation array := (ndarray F).

Lemma feature_map_value (s : F) (W x B : array) (M D N : nat) :
  shape W = [M; D] -> shape B = [M; 1] -> shape x = [N; D] ->
  phi_x_of s W x B
  = Ok (mk2 M N (fun m n =>
          fmul s (fcos (fadd (inner D (get2 W m) (get2 x n)) (get2 B m 0))))).
Proof.
  intros HW HB Hx. unfold phi_x_of.
  rewrite (transpose_2d _ Hx).
  rewrite (dot_2d_2d (n:=N) _ _ HW) by reflexivity.
  cbn [rbind].
  rewrite (add_column (r:=M) (c:=N) _ _) by (reflexivity || exact HB).
  cbn [rbind]. unfold smul, cos. rewrite !amap_mk2.
  f_equal. apply mk2_ext. intros m n Hm Hn.
  rewrite get2_mk2 by assumption.
  do 3 f_equal. apply inner_ext; intros d Hd; [reflexivity|].
  now rewrite get2_mk2.
Qed.

Lemma temp_value (W x B : array) (M D N : nat) :
  shape W = [M; D] -> shape B = [M; 1] -> shape x = [N; D] ->
  temp_of W x B
  = Ok (mk2 M N (fun m n =>
          fsin (fadd (inner D (get2 W m) (get2 x n)) (get2 B m 0)))).
Proof.
  intros HW HB Hx. unfold temp_of.
  rewrite (transpose_2d _ Hx).
  rewrite (dot_2d_2d (n:=N) _ _ HW) by reflexivity.
  cbn [rbind].
  rewrite (add_column (r:=M) (c:=N) _ _) by (reflexivity || exact HB).
  cbn [rbind]. unfold sin. rewrite !amap_mk2.
  f_equal. apply mk2_ext. intros m n Hm Hn.
  rewrite get2_mk2 by assumption.
  do 2 f_equal. apply inner_ext; intros d Hd; [reflexivity|].
  now rewrite get2_mk2.
Qed.

Lemma rff_approximation_value (cs : cstate F G) (x : array) (N : nat) :
  env_ok (captured cs) -> shape x = [N; env_D (captured cs)] ->
  rff_approximation x cs = (Ok (approx_value (captured cs) x N), cs).
Proof.
  intros (HW & HB & Ht) Hx.
  unfold rff_approximation, bind, lift, read, assert_, ret, shape0.
  rewrite Hx, shape_eqb_refl.
  rewrite (feature_map_value _ _ _ _ HW HB Hx).
  cbn [shape mk2]. rewrite shape_eqb_refl.
  rewrite (@transpose_2d _ _ _ (env_M (captured cs)) N) by reflexivity.
  rewrite (@dot_2d_1d _ _ _ _ N (env_M (captured cs))) by (reflexivity || exact Ht).
  cbn [shape mk1]. rewrite shape_eqb_refl.
  do 2 f_equal. unfold approx_value. apply mk1_ext. intros n Hn.
  apply inner_ext; intros m Hm; [|reflexivity].
  now rewrite !get2_mk2.
Qed.

Lemma column_mk2 (r c : nat) (f : nat -> nat -> F) (n : nat) :
  n < c -> column (mk2 r c f) n = Ok (mk1 r (fun i => f i n)).
Proof.
  intros Hn. unfold column. cbn [shape mk2].
  rewrite (proj2 (Nat.ltb_lt n c) Hn). f_equal. apply mk1_ext.
  intros i Hi. now apply get2_mk2.
Qed.

Lemma mul_1d_2d_same (v a : array) (r k : nat) :
  shape v = [k] -> shape a = [r; k] ->
  mul_1d_2d v a = Ok (mk2 r k (fun i j => fmul (get1 v j) (get2 a i j))).
Proof.
  intros Ev Ea. unfold mul_1d_2d. rewrite Ev, Ea, bdim_same.
  f_equal. apply mk2_ext. intros i j Hi Hj. now rewrite !(bidx_lt Hj).
Qed.

Lemma set_row_ok (g v : array) (r c n : nat) :
  shape g = [r; c] -> n < r -> shape v = [c] ->
  set_row g n v
  = Ok (mk2 r c (fun i j => if Nat.eqb i n then get1 v j else get2 g i j)).
Proof.
  intros Eg Hn Ev. unfold set_row. rewrite Eg, Ev, shape_eqb_refl.
  now rewrite (proj2 (Nat.ltb_lt n r) Hn).
Qed.

Lemma for_range_invariant {St A} (I : nat -> A -> Prop)
  (body : nat -> A -> SE St A) (s : St) :
  forall len k a,
    (forall n a, k <= n < k + len -> I n a ->
       exists a', body n a s = (Ok a', s) /\ I (S n) a') ->
    I k a ->
    exists a', for_range (seq k len) body a s = (Ok a', s) /\ I (k + len) a'.
Proof.
  induction len as [|len IH]; intros k a Hstep Hk.
  - exists a. cbn. rewrite Nat.add_0_r. now split.
  - cbn [seq for_range]. unfold bind at 1.
    destruct (Hstep k a) as (a1 & E1 & I1); [lia | exact Hk |].
    rewrite E1.
    destruct (IH (S k) a1) as (a2 & E2 & I2).
    + intros n b Hn Hb. apply Hstep; [lia | exact Hb].
    + exact I1.
    + exists a2. split; [exact E2|].
      now replace (k + S len) with (S k + len) by lia.
Qed.

Lemma rff_approximation_gradient_value (cs : cstate F G) (x : array)
  (N : nat) :
  env_ok (captured cs) -> shape x = [N; env_D (captured cs)] ->
  rff_approximation_gradient x cs
  = (Ok (gradient_value (captured cs) x N), cs).
Proof.
  intros (HW & HB & Ht) Hx.
  unfold rff_approximation_gradient.
  unfold bind at 1, lift at 1, shape0. rewrite Hx.
  unfold bind at 1, read at 1.
  unfold bind at 1, assert_ at 1. rewrite shape_eqb_refl. unfold ret at 1.
  unfold bind at 1, read at 1.
  unfold bind at 1, read at 1.
  unfold bind at 1, lift at 1.
  rewrite (temp_value _ _ _ HW HB Hx).
  unfold bind at 1, read at 1.
  unfold bind at 1, assert_ at 1. cbn [shape mk2].
  rewrite shape_eqb_refl. unfold ret at 1.
  unfold bind at 1, np_empty2 at 1.
  set (e := captured cs). set (M := env_M e). set (D := env_D e).
  set (junk := uninit (outer cs)).
  unfold bind at 1.
  match goal with
  | |- context [for_range _ ?b ?g0 ?s0] =>
      destruct (@for_range_invariant _ _
        (fun k g => g = mk2 N D (fun i j =>
           if Nat.ltb i k then gradient_entry e x i j else junk (i * D + j)))
        b s0 N 0 g0) as (g' & Eg & Ig)
  end.
  - intros n g Hn ->.
    unfold bind, read, lift.
    rewrite column_mk2 by lia.
    unfold smul. rewrite amap_mk1.
    rewrite (transpose_2d _ HW).
    rewrite (@mul_1d_2d_same _ _ D M) by reflexivity.
    rewrite (@dot_2d_1d _ _ _ _ D M) by (reflexivity || exact Ht).
    rewrite (@set_row_ok _ _ N D n) by (reflexivity || lia).
    eexists. split; [reflexivity|].
    apply mk2_ext. intros i j Hi Hj.
    destruct (Nat.eqb_spec i n) as [->|Hne].
    + replace (Nat.ltb n (S n)) with true by (symmetry; apply Nat.ltb_lt; lia).
      rewrite get1_mk1 by assumption.
      unfold gradient_entry. apply inner_ext; intros m Hm; [|reflexivity].
      rewrite get2_mk2 by assumption.
      rewrite get1_mk1 by assumption.
      rewrite get2_mk2 by assumption. reflexivity.
    + rewrite get2_mk2 by assumption.
      destruct (Nat.ltb_spec i n), (Nat.ltb_spec i (S n)); try lia; reflexivity.
  - reflexivity.
  - rewrite Eg. unfold ret. do 2 f_equal. rewrite Ig. cbn [Nat.add].
    apply mk2_ext. intros i j Hi Hj.
    now rewrite (proj2 (Nat.ltb_lt i N) Hi).
Qed.

(** ** Running the monad backwards *)

Lemma bind_Ok {St A B} (m : SE St A) (k : A -> SE St B) s b s' :
  bind m k s = (Ok b, s') ->
  exists a s1, m s = (Ok a, s1) /\ k a s1 = (Ok b, s').
Proof.
  unfold bind. destruct (m s) as [[a|e] s1]; intros E.
  - now exists a, s1.
  - discriminate.
Qed.

Lemma lift_Ok {St A} (r : result A) (s s' : St) a :
  lift r s = (Ok a, s') -> r = Ok a /\ s' = s.
Proof. unfold lift. intros E. now inversion E. Qed.

Lemma assert_Ok {St} (b : bool) (s s' : St) u :
  assert_ b s = (Ok u, s') -> b = true /\ s' = s.
Proof.
  unfold assert_, ret, raise. destruct b; intros E; inversion E; now split.
Qed.

Lemma ret_Ok {St A} (a b : A) (s s' : St) :
  ret a s = (Ok b, s') -> a = b /\ s' = s.
Proof. unfold ret. intros E. now inversion E. Qed.

Lemma rbind_Ok {A B} (r : result A) (k : A -> result B) b :
  rbind r k = Ok b -> exists a, r = Ok a /\ k a = Ok b.
Proof. destruct r as [a|e]; cbn; intros E; [now exists a | discriminate]. Qed.

(** ** [check_inputs] *)

Lemma check_inputs_Ok lengthscales scaling noise kernel_nu X Y c :
  check_inputs lengthscales scaling noise kernel_nu X Y = Ok c ->
  c = {| chk_X := atleast_2d X; chk_Y := atleast_1d Y;
         chk_lengthscales := atleast_1d lengthscales;
         chk_D := nth 1 (shape (atleast_2d X)) 0;
         chk_N_obs := nth 0 (shape (atleast_1d Y)) 0 |} /\
  shape (atleast_2d X)
  = [nth 0 (shape (atleast_1d Y)) 0; nth 1 (shape (atleast_2d X)) 0] /\
  shape (atleast_1d lengthscales) = [nth 1 (shape (atleast_2d X)) 0] /\
  ndim scaling = 0 /\ ndim noise = 0.
Proof.
  unfold check_inputs.
  destruct (shape_eqb (shape (atleast_2d X)) _) eqn:E1; [|discriminate].
  destruct (shape_eqb (shape (atleast_1d lengthscales)) _) eqn:E2;
    [|discriminate].
  destruct (Nat.eqb_spec (ndim scaling) 0) as [E3|]; [|discriminate].
  destruct (Nat.eqb_spec (ndim noise) 0) as [E4|]; [|discriminate].
  cbn [negb]. intros E. apply rbind_Ok in E as (b & _ & E).
  destruct b; [discriminate|]. inversion E.
  apply shape_eqb_true in E1, E2. repeat split; assumption.
Qed.

(** ** [sample_rff] establishes the shapes its closures rely on *)

Lemma sample_W_B_shapes kernel_nu lengthscales M D w W B w' :
  sample_W_B lib kernel_nu lengthscales M D w = (Ok (W, B), w') ->
  shape W = [M; D] /\ shape B = [M; 1].
Proof.
  unfold sample_W_B. intros E.
  apply bind_Ok in E as (b & w1 & _ & E).
  apply bind_Ok in E as (W1 & w2 & _ & E).
  apply bind_Ok in E as (u1 & w3 & A1 & E). apply assert_Ok in A1 as (A1 & _).
  apply bind_Ok in E as (B1 & w4 & _ & E).
  apply bind_Ok in E as (u2 & w5 & A2 & E). apply assert_Ok in A2 as (A2 & _).
  apply ret_Ok in E as (E & _). inversion E; subst.
  apply shape_eqb_true in A1, A2. now split.
Qed.

Lemma sample_rff_env lengthscales scaling noise kernel_nu X Y M w e w' :
  sample_rff lib lengthscales scaling noise kernel_nu X Y M w = (Ok e, w') ->
  env_ok e /\
  env_M e = M /\
  env_D e = nth 1 (shape (atleast_2d X)) 0 /\
  env_sqrt_2_alpha_over_m e = sqrt_2_alpha_over_m_of scaling M.
Proof.
  unfold sample_rff. intros E.
  apply bind_Ok in E as (c & w1 & Hc & E). apply lift_Ok in Hc as (Hc & _).
  apply check_inputs_Ok in Hc as (-> & _). cbv beta zeta in E. cbn [chk_X chk_Y chk_D chk_N_obs chk_lengthscales] in E.
  apply bind_Ok in E as ([W B] & w2 & HWB & E).
  apply sample_W_B_shapes in HWB as (HW & HB).
  cbn [fst snd] in E.
  apply bind_Ok in E as (zeta & w3 & _ & E).
  apply bind_Ok in E as (u1 & w4 & _ & E).
  apply bind_Ok in E as (post & w5 & _ & E).
  apply bind_Ok in E as (theta & w6 & _ & E).
  apply bind_Ok in E as (u2 & w7 & Ht & E). apply assert_Ok in Ht as (Ht & _).
  apply shape_eqb_true in Ht.
  apply bind_Ok in E as (X0 & w8 & _ & E).
  apply bind_Ok in E as (y & w9 & _ & E).
  apply bind_Ok in E as (u3 & w10 & _ & E).
  apply bind_Ok in E as (g & w11 & _ & E).
  apply bind_Ok in E as (u4 & w12 & _ & E).
  apply ret_Ok in E as (<- & _).
  unfold env_ok. cbn. repeat split; assumption.
Qed.

(** ** [_vectorize] *)

Lemma index0_mk1 (f : nat -> F) : index0 (mk1 1 f) = Ok (scalar0 (f 0)).
Proof. reflexivity. Qed.

Lemma index0_mk2 (D : nat) (f : nat -> nat -> F) :
  index0 (mk2 1 D f) = Ok (mk1 D (f 0)).
Proof.
  unfold index0, mk2, mk1. cbn [shape data seq flat_map Nat.eqb].
  rewrite app_nil_r. do 2 f_equal.
  apply firstn_all2. rewrite length_map, length_seq. cbn. lia.
Qed.

Lemma atleast_2d_2d (x : array) (N D : nat) :
  shape x = [N; D] -> atleast_2d x = x.
Proof. intros E. unfold atleast_2d. now rewrite E. Qed.

Lemma atleast_2d_1d (x : array) (D : nat) :
  shape x = [D] -> atleast_2d x = mk_nd [1; D] (data x).
Proof. intros E. unfold atleast_2d. now rewrite E. Qed.

Lemma vectorize_2d (fn : array -> SE (cstate F G) array) (x : array) N D :
  shape x = [N; D] -> _vectorize fn x = fn x.
Proof.
  intros E. unfold _vectorize, ndim. now rewrite (atleast_2d_2d _ E), E.
Qed.

Lemma vectorize_1d (fn : array -> SE (cstate F G) array) (x : array) D :
  shape x = [D] ->
  _vectorize fn x = (r <- fn (atleast_2d x) ;; lift (index0 r)).
Proof. intros E. unfold _vectorize, ndim. now rewrite E. Qed.

Lemma assertion_fails_2d (cs : cstate F G) (x : array) (N D' : nat) :
  shape x = [N; D'] -> D' <> env_D (captured cs) ->
  rff_approximation x cs = (Raise AssertionError, cs) /\
  rff_approximation_gradient x cs = (Raise AssertionError, cs).
Proof.
  intros Hx Hd.
  unfold rff_approximation, rff_approximation_gradient.
  unfold bind, lift, read, assert_, shape0. rewrite Hx.
  rewrite shape_eqb_false by congruence. now split.
Qed.

(** ** The feature map and the returned callables *)

(** C5.  For a coordinate matrix [x] of shape (N', D), frequencies [W] of
    shape (M, D), phases [B] of shape (M, 1) and alpha = scaling**2, the
    feature map the code computes is the array of shape (M, N') whose
    entry (m, n) is  sqrt(2 alpha / M) * cos(W[m] . x[n] + B[m, 0]) ;
    the expression that builds the training embedding zeta (line 141) and
    the one inside the returned approximation (line 171) both compute it. *)
Theorem feature_map_formula (scaling W B x : array) (M D N : nat) :
  shape W = [M; D] -> shape B = [M; 1] -> shape x = [N; D] ->
  let s := sqrt_2_alpha_over_m_of scaling M in
  let phi := phi_spec (fpow2 (item scaling)) M D N W B x in
  zeta_of s W x B = Ok phi /\ phi_x_of s W x B = Ok phi /\
  shape phi = [M; N] /\ wf phi.
Proof.
  intros HW HB Hx s phi.
  assert (E : phi_x_of s W x B = Ok phi)
    by exact (feature_map_value s _ _ _ HW HB Hx).
  repeat split; [exact E | exact E | apply wf_mk2].
Qed.

(** C6.  Once [sample_rff] has returned, the approximation function (plain
    and compiled) maps a 2-dimensional input of shape (N', D) to the vector
    of shape (N',) whose entry n is  phi(x)[:, n] . theta , and a
    1-dimensional input of shape (D,) to the 0-dimensional value of the
    same formula for that single point. *)
Theorem f_rff_formula lengthscales scaling noise kernel_nu X Y M w e w'
  (x : array) (cs : cstate F G) :
  sample_rff lib lengthscales scaling noise kernel_nu X Y M w = (Ok e, w') ->
  captured cs = e ->
  let f_x x n :=
    f_entry (fpow2 (item scaling)) M (env_D e) (env_W e) (env_B e)
      (env_sample_of_theta e) x n in
  (forall N, shape x = [N; env_D e] ->
     f_rff x cs = (Ok (mk1 N (f_x x)), cs) /\
     f_rff_njit x cs = (Ok (mk1 N (f_x x)), cs)) /\
  (shape x = [env_D e] ->
     f_rff x cs = (Ok (scalar0 (f_x (atleast_2d x) 0)), cs) /\
     f_rff_njit x cs = (Ok (scalar0 (f_x (atleast_2d x) 0)), cs)).
Proof.
  intros Hrun Hcs f_x.
  apply sample_rff_env in Hrun as (Hok & HM & _ & Hs).
  subst e.
  assert (V : forall x N, approx_value (captured cs) x N = mk1 N (f_x x)).
  { intros x' N. unfold approx_value, f_x, f_entry, phi_entry.
    rewrite Hs, HM. reflexivity. }
  unfold f_rff, f_rff_njit, njit. split.
  - intros N Hx. rewrite (vectorize_2d _ _ Hx).
    rewrite (rff_approximation_value _ _ Hok Hx), V. now split.
  - intros Hx. rewrite (vectorize_1d _ _ Hx). unfold bind.
    rewrite (@rff_approximation_value cs (atleast_2d x) 1 Hok)
      by (now rewrite (atleast_2d_1d _ Hx)).
    rewrite V. unfold lift. rewrite index0_mk1. now split.
Qed.

(** C7.  Once [sample_rff] has returned, the gradient callable maps a
    2-dimensional input of shape (N, D) to the array of shape (N, D) whose
    row n is  ((-sqrt(2 alpha / M) * sin(W x_n + B)) (.) W)^T theta , and a
    1-dimensional input of shape (D,) to that row alone, of shape (D,). *)
Theorem g_rff_formula lengthscales scaling noise kernel_nu X Y M w e w'
  (x : array) (cs : cstate F G) :
  sample_rff lib lengthscales scaling noise kernel_nu X Y M w = (Ok e, w') ->
  captured cs = e ->
  let g_x x n d :=
    grad_entry (fpow2 (item scaling)) M (env_D e) (env_W e) (env_B e)
      (env_sample_of_theta e) x n d in
  (forall N, shape x = [N; env_D e] ->
     g_rff_njit x cs = (Ok (mk2 N (env_D e) (g_x x)), cs)) /\
  (shape x = [env_D e] ->
     g_rff_njit x cs = (Ok (mk1 (env_D e) (g_x (atleast_2d x) 0)), cs)).
Proof.
  intros Hrun Hcs g_x.
  apply sample_rff_env in Hrun as (Hok & HM & _ & Hs).
  subst e.
  assert (V : forall x N,
    gradient_value (captured cs) x N = mk2 N (env_D (captured cs)) (g_x x)).
  { intros x' N. unfold gradient_value. apply mk2_ext. intros n d _ _.
    unfold gradient_entry, g_x, grad_entry. rewrite Hs, HM. reflexivity. }
  unfold g_rff_njit, njit. split.
  - intros N Hx. rewrite (vectorize_2d _ _ Hx).
    now rewrite (rff_approximation_gradient_value _ _ Hok Hx), V.
  - intros Hx. rewrite (vectorize_1d _ _ Hx). unfold bind.
    rewrite (@rff_approximation_gradient_value cs (atleast_2d x) 1 Hok)
      by (now rewrite (atleast_2d_1d _ Hx)).
    rewrite V. unfold lift. now rewrite index0_mk2.
Qed.

(** C10.  Each returned callable, given a 2-dimensional input whose second
    dimension is not D or a 1-dimensional input whose length is not D,
    raises AssertionError (the closure's own shape assertion), never
    ShapeError, and leaves the state as it was. *)
Theorem callables_reject_wrong_dimension (x : array) (cs : cstate F G) :
  (exists N D', shape x = [N; D'] /\ D' <> env_D (captured cs)) \/
  (exists L, shape x = [L] /\ L <> env_D (captured cs)) ->
  f_rff x cs = (Raise AssertionError, cs) /\
  f_rff_njit x cs = (Raise AssertionError, cs) /\
  g_rff_njit x cs = (Raise AssertionError, cs).
Proof.
  unfold f_rff, f_rff_njit, g_rff_njit, njit.
  intros [(N & D' & Hx & Hd) | (L & Hx & Hd)].
  - rewrite !(vectorize_2d _ _ Hx).
    destruct (assertion_fails_2d cs _ Hx Hd) as (-> & ->). now repeat split.
  - rewrite !(vectorize_1d _ _ Hx). unfold bind.
    assert (Hx2 : shape (atleast_2d x) = [1; L])
      by now rewrite (atleast_2d_1d _ Hx).
    destruct (assertion_fails_2d cs _ Hx2 Hd) as (-> & ->). now repeat split.
Qed.

Lemma truth_raises (p : F -> bool) (v : pyval F) (e : exn) :
  truth p v = Raise e -> e = ValueError.
Proof.
  destruct v as [x|a]; cbn; [discriminate|].
  destruct (data a) as [|y [|z l]]; intros E; now inversion E.
Qed.

(** [check_inputs] raises DtypeError exactly for a non-scalar [kernel_nu]
    whose test [kernel_nu > 0] is true, once the four shape checks passed. *)
Lemma check_inputs_DtypeError lengthscales scaling noise kernel_nu X Y :
  check_inputs lengthscales scaling noise kernel_nu X Y = Raise DtypeError ->
  isscalar kernel_nu = false /\ truth fgt0 kernel_nu = Ok true.
Proof.
  unfold check_inputs.
  destruct (shape_eqb (shape (atleast_2d X)) _); [|discriminate].
  destruct (shape_eqb (shape (atleast_1d lengthscales)) _); [|discriminate].
  destruct (Nat.eqb (ndim scaling) 0); [|discriminate].
  destruct (Nat.eqb (ndim noise) 0); [|discriminate].
  cbn [negb]. destruct (isscalar kernel_nu); cbn; [discriminate|].
  destruct (truth fgt0 kernel_nu) as [[|]|e] eqn:T; cbn; intros E;
    try discriminate; [now split|].
  inversion E; subst. apply truth_raises in T. discriminate.
Qed.

Lemma scalar_kernel_nu_never_DtypeError lengthscales scaling noise nu X Y :
  check_inputs lengthscales scaling noise (PyScalar nu) X Y
  <> Raise DtypeError.
Proof.
  intros E. apply check_inputs_DtypeError in E as (E & _). discriminate.
Qed.

(** C8.  With X, Y and lengthscales read after [atleast_2d] / [atleast_1d]
    as the code reads them: whenever X.shape[0] differs from Y.shape[0], or
    lengthscales.shape is not (D,) for D = X.shape[1], or scaling is not
    0-dimensional, or noise is not 0-dimensional, the input check raises
    ShapeError and [sample_rff] raises it with the generator and the log
    of library calls untouched, so before anything was sampled. *)
Theorem sample_rff_raises_ShapeError
  lengthscales scaling noise kernel_nu X Y M (w : world F G) :
  nth 0 (shape (atleast_2d X)) 0 <> nth 0 (shape (atleast_1d Y)) 0 \/
  shape (atleast_1d lengthscales) <> [nth 1 (shape (atleast_2d X)) 0] \/
  ndim scaling <> 0 \/
  ndim noise <> 0 ->
  check_inputs lengthscales scaling noise kernel_nu X Y = Raise ShapeError /\
  sample_rff lib lengthscales scaling noise kernel_nu X Y M w
  = (Raise ShapeError, w).
Proof.
  intros Hbad.
  assert (E : check_inputs lengthscales scaling noise kernel_nu X Y
              = Raise ShapeError).
  { unfold check_inputs.
    destruct (shape_eqb (shape (atleast_2d X)) _) eqn:E1; [|reflexivity].
    destruct (shape_eqb (shape (atleast_1d lengthscales)) _) eqn:E2;
      [|reflexivity].
    destruct (Nat.eqb_spec (ndim scaling) 0) as [E3|]; [|reflexivity].
    destruct (Nat.eqb_spec (ndim noise) 0) as [E4|]; [|reflexivity].
    exfalso. apply shape_eqb_true in E1, E2.
    destruct Hbad as [Hb | [Hb | [Hb | Hb]]]; try contradiction.
    apply Hb. rewrite E1 at 1. reflexivity. }
  split; [exact E|].
  unfold sample_rff, bind, lift. now rewrite E.
Qed.

(** ** [_compute_inverse] *)

Lemma count_inv_app (t u : list (call F)) :
  count_inv (t ++ u) = count_inv t + count_inv u.
Proof. unfold count_inv. now rewrite filter_app, length_app. Qed.

Lemma exn_eqb_LinAlgError (e : exn) :
  exn_eqb e LinAlgError = true <-> e = LinAlgError.
Proof. destruct e; cbn; split; intros E; congruence. Qed.

Lemma cholesky_route_trace (A : array) (w : world F G) :
  gen (snd (cholesky_route lib A w)) = gen w /\
  uninit (snd (cholesky_route lib A w)) = uninit w /\
  count_inv (trace (snd (cholesky_route lib A w))) = count_inv (trace w) /\
  exists tl, trace (snd (cholesky_route lib A w))
             = trace w ++ call_cho_factor A :: tl.
Proof.
  unfold cholesky_route, bind, cho_factor, cho_solve, lift, ret, shape0, log.
  destruct (linalg_cho_factor lib A) as [c|e]; cbn [fst snd gen trace uninit].
  - destruct (shape A) as [|n sh]; cbn [fst snd gen trace uninit].
    + rewrite count_inv_app. cbn. repeat split; try lia. now exists [].
    + destruct (linalg_cho_solve lib c (eye n));
        cbn [fst snd gen trace uninit];
        rewrite !count_inv_app; cbn; repeat split; try lia;
        rewrite <- app_assoc; now eexists.
  - rewrite count_inv_app. cbn. repeat split; try lia. now exists [].
Qed.

(** C4.  [_compute_inverse] first runs the Cholesky factorisation and solve.
    If that attempt raises LinAlgError, and only then, it calls the general
    inversion, once, and its outcome (a matrix or whatever that call
    raised) is the outcome of the routine; otherwise the outcome of the
    Cholesky attempt is the outcome of the routine and the general
    inversion is not called. *)
Theorem compute_inverse_policy (A : array) (w : world F G) :
  let r := fst (cholesky_route lib A w) in
  let w1 := snd (cholesky_route lib A w) in
  let r' := fst (_compute_inverse lib A w) in
  let w' := snd (_compute_inverse lib A w) in
  (exists tl, trace w' = trace w ++ call_cho_factor A :: tl) /\
  (r = Raise LinAlgError ->
     r' = linalg_inv lib A /\ trace w' = trace w1 ++ [call_inv A]) /\
  (r <> Raise LinAlgError -> r' = r /\ w' = w1) /\
  (count_inv (trace w') = count_inv (trace w) + 1 <-> r = Raise LinAlgError) /\
  count_inv (trace w') <= count_inv (trace w) + 1 /\
  gen w' = gen w.
Proof.
  intros r w1 r' w'.
  destruct (cholesky_route_trace A w) as (Hg & _ & Hc & tl & Ht).
  fold w1 in Hg, Hc, Ht.
  assert (E : _compute_inverse lib A w
              = try_except (cholesky_route lib A) LinAlgError
                  (A_inverse <- inv lib A ;; ret A_inverse) w)
    by reflexivity.
  unfold try_except in E.
  destruct (cholesky_route lib A w) as [rr ww] eqn:R.
  cbn [fst snd] in r, w1. subst r w1.
  destruct rr as [a|e].
  - subst r' w'. rewrite E. cbn [fst snd].
    repeat split; try discriminate; try lia; try assumption;
      try (now exists tl); intros; lia.
  - destruct (exn_eqb e LinAlgError) eqn:X.
    + apply exn_eqb_LinAlgError in X. subst e.
      assert (E' : _compute_inverse lib A w
                   = (linalg_inv lib A, log (call_inv A) (gen ww) ww)).
      { rewrite E. unfold bind, inv, ret.
        now destruct (linalg_inv lib A). }
      subst r' w'. rewrite E'. cbn [fst snd log trace gen].
      rewrite count_inv_app, Hc, Ht. cbn [count_inv filter is_call_inv length].
      repeat split; try lia; try assumption; try congruence.
      exists (tl ++ [call_inv A]). now rewrite <- app_assoc.
    + subst r' w'. rewrite E. cbn [fst snd].
      assert (Hne : e <> LinAlgError).
      { intros C. apply exn_eqb_LinAlgError in C. congruence. }
      repeat split; try lia; try assumption; try congruence;
        try (now exists tl); intros; lia.
Qed.

(** ** The posterior of theta *)

Lemma eye_shape (M : nat) : shape (eye (F:=F) M) = [M; M].
Proof. reflexivity. Qed.

Lemma gram_value (zeta : array) (noise : F) (M N : nat) :
  shape zeta = [M; N] ->
  rbind (dot zeta (transpose zeta))
        (fun zzT => add (divide zzT noise) (eye M))
  = Ok (A_spec zeta noise M N).
Proof.
  intros Hz. rewrite (transpose_2d _ Hz).
  rewrite (dot_2d_2d (n:=M) _ _ Hz) by reflexivity.
  cbn [rbind]. unfold divide. rewrite amap_mk2.
  rewrite (@add_same _ _ _ _ M M) by reflexivity.
  f_equal. unfold A_spec. apply mk2_ext. intros i j Hi Hj.
  rewrite get2_mk2 by assumption. unfold eye. rewrite get2_mk2 by assumption.
  do 2 f_equal. apply inner_ext; intros n Hn; [reflexivity|].
  now rewrite get2_mk2.
Qed.

Lemma compute_inverse_trace (A : array) (w : world F G) :
  exists tl, trace (snd (_compute_inverse lib A w))
             = trace w ++ call_cho_factor A :: tl.
Proof.
  destruct (cholesky_route_trace A w) as (_ & _ & _ & tl & Ht).
  change (_compute_inverse lib A w)
    with (try_except (cholesky_route lib A) LinAlgError
            (A_inverse <- inv lib A ;; ret A_inverse) w).
  unfold try_except.
  destruct (cholesky_route lib A w) as [[a|e] ww]; cbn [fst snd] in Ht |- *.
  - now exists tl.
  - destruct (exn_eqb e LinAlgError); [|now exists tl].
    unfold bind, inv, ret.
    destruct (linalg_inv lib A); cbn [fst snd log trace];
      rewrite Ht, <- app_assoc; now eexists.
Qed.

(** C3.  For a training embedding zeta of shape (M, N), observations Y of
    shape (N,) and the noise parameter, the posterior step hands
    A = zeta zeta^T / noise + I_M  to the inverse routine and, when that
    returns a matrix A^-1 of shape (M, M), yields the posterior mean
    A^-1 zeta Y / noise  of shape (M,) and the posterior covariance A^-1. *)
Theorem posterior_formula (zeta Y noise : array) (M N : nat)
  (w w1 : world F G) (A_inverse : array) :
  shape zeta = [M; N] -> shape Y = [N] ->
  _compute_inverse lib (A_spec zeta (item noise) M N) w = (Ok A_inverse, w1) ->
  shape A_inverse = [M; M] ->
  let mean := mean_spec A_inverse zeta Y (item noise) M N in
  posterior_of_theta lib zeta Y noise M w = (Ok (mean, A_inverse), w1) /\
  shape mean = [M] /\
  shape (A_spec zeta (item noise) M N) = [M; M] /\
  exists tl,
    trace w1 = trace w ++ call_cho_factor (A_spec zeta (item noise) M N) :: tl.
Proof.
  intros Hz HY Hinv HA mean.
  split; [|split; [reflexivity | split; [reflexivity|]]].
  - pose proof (gram_value _ (item noise) Hz) as Eg.
    unfold posterior_of_theta.
    unfold bind at 1, lift at 1.
    destruct (dot zeta (transpose zeta)) as [zzT|e]; [|discriminate].
    cbn [rbind] in Eg.
    unfold bind at 1, lift at 1. rewrite Eg.
    unfold bind at 1. rewrite Hinv.
    unfold bind at 1, assert_ at 1. rewrite HA, shape_eqb_refl.
    unfold ret at 1.
    unfold bind at 1, lift at 1.
    rewrite (dot_2d_2d (n:=N) _ _ HA Hz).
    unfold bind at 1, lift at 1.
    rewrite (@dot_2d_1d _ _ _ _ M N) by (reflexivity || exact HY).
    unfold divide. rewrite amap_mk1.
    unfold bind, assert_. cbn [shape mk1]. rewrite !shape_eqb_refl.
    unfold ret. do 3 f_equal.
    unfold mean, mean_spec. apply mk1_ext. intros i Hi. f_equal.
    apply inner_ext; intros n Hn; [|reflexivity].
    now rewrite get2_mk2.
  - pose proof (compute_inverse_trace (A_spec zeta (item noise) M N) w) as T.
    now rewrite Hinv in T.
Qed.


(** ** The spectral sampler *)

Lemma rdiv_entry (s : F) (a : array) (d : nat) :
  d < length (data a) -> get1 (rdiv s a) d = fdiv s (get1 a d).
Proof.
  intros Hd. unfold get1, rdiv, amap. cbn [data].
  rewrite nth_indep with (d' := fdiv s (of_nat 0))
    by (now rewrite length_map).
  now rewrite map_nth.
Qed.

Lemma Forall_rdiv (s : F) (a : array) :
  Forall (fun l => fge0 (fdiv s l) = true) (data a) ->
  Forall (fun x => fge0 x = true) (data (rdiv s a)).
Proof.
  intros Hf. unfold rdiv, amap. cbn [data].
  apply Forall_forall. intros y Hy. apply in_map_iff in Hy as (l & <- & Hl).
  rewrite Forall_forall in Hf. now apply Hf.
Qed.

(** C2 (amended).  For inputs that passed validation with a scalar
    [kernel_nu]: [W] is the library's answer to a request for an (M, D)
    array from a normal distribution with location 0 and scale
    1/lengthscales when [kernel_nu] is infinite, and from a Student-t
    distribution with [kernel_nu] degrees of freedom, location 0 and scale
    1/lengthscales otherwise; entry d of that scale is 1/lengthscales[d];
    [B] is the answer to a request for an (M, 1) array uniform on
    [0, 2 pi).  Provided no scale 1/lengthscales[d] is negative and, in the
    Student-t case, [kernel_nu] is positive, both requests succeed. *)
Theorem spectral_sampling
  lengthscales scaling noise (nu : F) X Y c (M : nat) (w : world F G) :
  library_contract lib ->
  check_inputs lengthscales scaling noise (PyScalar nu) X Y = Ok c ->
  Forall (fun l => fge0 (fdiv (of_nat 1) l) = true)
         (data (chk_lengthscales c)) ->
  (fisinf nu = false -> fgt0 nu = true) ->
  let ls := chk_lengthscales c in
  let D := chk_D c in
  exists W B g1 w',
    sample_W_B lib (PyScalar nu) ls M D w = (Ok (W, B), w') /\
    answer lib (W_request nu ls M D) (gen w) = (Ok W, g1) /\
    answer lib (B_request M) g1 = (Ok B, gen w') /\
    trace w' = trace w ++ [W_request nu ls M D; B_request M] /\
    shape W = [M; D] /\ shape B = [M; 1] /\
    (forall d, d < length (data ls) ->
       get1 (rdiv (of_nat 1) ls) d = fdiv (of_nat 1) (get1 ls d)).
Proof.
  intros [Hn Ht Hu] Hc Hpos Hnu ls D.
  apply check_inputs_Ok in Hc as (Ec & _ & Hls & _).
  assert (Hshape : shape (rdiv (of_nat 1) ls) = [last [M; D] 1]).
  { subst ls D. rewrite Ec. cbn. exact Hls. }
  pose proof (Forall_rdiv _ _ Hpos) as Hscale. fold ls in Hscale.
  assert (HW : exists W g1,
    answer lib (W_request nu ls M D) (gen w) = (Ok W, g1) /\ shape W = [M; D]).
  { unfold W_request. destruct (fisinf nu) eqn:I; cbn [answer].
    - now apply Hn.
    - apply Ht; auto. }
  destruct HW as (W & g1 & EW & SW).
  destruct (Hu [M; 1] g1) as (B & g2 & EB & SB).
  exists W, B, g1,
    (log (B_request M) g2 (log (W_request nu ls M D) g1 w)).
  repeat split; try assumption.
  - unfold sample_W_B. unfold bind at 1, lift at 1. cbn [truth].
    unfold bind at 1.
    assert (E1 : (if fisinf nu
                  then np_random_normal lib (of_nat 0)
                         (rdiv (of_nat 1) ls) [M; D]
                  else scipy_stats_t_rvs lib (PyScalar nu) (of_nat 0)
                         (rdiv (of_nat 1) ls) [M; D]) w
                 = (Ok W, log (W_request nu ls M D) g1 w)).
    { unfold W_request in *. destruct (fisinf nu); cbn [answer] in EW;
        unfold np_random_normal, scipy_stats_t_rvs; now rewrite EW. }
    rewrite E1.
    unfold bind at 1, assert_ at 1. rewrite SW, shape_eqb_refl.
    unfold ret at 1. unfold bind at 1, np_random_uniform.
    cbn [gen log]. cbn [answer B_request] in EB. rewrite EB.
    unfold bind, assert_. rewrite SB, shape_eqb_refl. reflexivity.
  - cbn [log trace]. now rewrite <- app_assoc.
  - intros d Hd. now apply rdiv_entry.
Qed.

(** ** Purity of the returned callables *)

Lemma readonly_ret {St A} (a : A) : readonly (ret (S:=St) a).
Proof. now intros s. Qed.

Lemma readonly_raise {St A} (e : exn) : readonly (raise (S:=St) (A:=A) e).
Proof. now intros s. Qed.

Lemma readonly_lift {St A} (r : result A) : readonly (lift (S:=St) r).
Proof. now intros s. Qed.

Lemma readonly_assert {St} (b : bool) : readonly (assert_ (S:=St) b).
Proof. intros s. now destruct b. Qed.

Lemma readonly_read {A} (f : env F -> A) : readonly (read f : SE (cstate F G) A).
Proof. now intros s. Qed.

Lemma readonly_empty (N D : nat) : readonly (np_empty2 N D : SE (cstate F G) array).
Proof. now intros s. Qed.

Lemma readonly_bind {St A B} (m : SE St A) (k : A -> SE St B) :
  readonly m -> (forall a, readonly (k a)) -> readonly (bind m k).
Proof.
  intros Hm Hk s. unfold bind. specialize (Hm s).
  destruct (m s) as [[a|e] s1]; cbn [snd] in Hm; subst s1.
  - apply Hk.
  - reflexivity.
Qed.

Lemma readonly_for_range {St A} (body : nat -> A -> SE St A) :
  (forall n a, readonly (body n a)) ->
  forall ns a, readonly (for_range ns body a).
Proof.
  intros Hb. induction ns as [|n ns IH]; intros a; cbn [for_range].
  - apply readonly_ret.
  - apply readonly_bind; [apply Hb | exact IH].
Qed.

Lemma env_only_ret {A} (a : A) : env_only (ret a : SE (cstate F G) A).
Proof. now intros cs1 cs2 _. Qed.

Lemma env_only_lift {A} (r : result A) : env_only (lift r : SE (cstate F G) A).
Proof. now intros cs1 cs2 _. Qed.

Lemma env_only_assert (b : bool) : env_only (assert_ b : SE (cstate F G) unit).
Proof. intros cs1 cs2 _. now destruct b. Qed.

Lemma env_only_read {A} (f : env F -> A) : env_only (read f : SE (cstate F G) A).
Proof. intros cs1 cs2 E. unfold read. cbn [fst]. now rewrite E. Qed.

Lemma env_only_bind {A B} (m : SE (cstate F G) A)
  (k : A -> SE (cstate F G) B) :
  readonly m -> env_only m -> (forall a, env_only (k a)) ->
  env_only (bind m k).
Proof.
  intros Hr Hm Hk cs1 cs2 E. unfold bind.
  pose proof (Hr cs1) as R1. pose proof (Hr cs2) as R2.
  specialize (Hm cs1 cs2 E).
  destruct (m cs1) as [r1 s1], (m cs2) as [r2 s2].
  cbn [fst snd] in *. subst s1 s2 r2.
  destruct r1 as [a|e]; [now apply Hk | reflexivity].
Qed.

Create HintDb pure discriminated.

#[local] Hint Resolve readonly_ret readonly_raise readonly_lift
  readonly_assert readonly_read readonly_empty readonly_bind
  readonly_for_range env_only_ret env_only_lift env_only_assert
  env_only_read env_only_bind : pure.

Lemma rff_approximation_readonly (x : array) :
  readonly (rff_approximation x : SE (cstate F G) array).
Proof. unfold rff_approximation. auto 20 with pure. Qed.

Lemma rff_approximation_env_only (x : array) :
  env_only (rff_approximation x : SE (cstate F G) array).
Proof. unfold rff_approximation. auto 40 with pure. Qed.

Lemma rff_approximation_gradient_readonly (x : array) :
  readonly (rff_approximation_gradient x : SE (cstate F G) array).
Proof. unfold rff_approximation_gradient. auto 40 with pure. Qed.

(** The gradient's loop writes every row of the buffer it was given, so
    what the buffer held before does not show in the result. *)
Lemma loop_rows_independent
  (body : nat -> array -> SE (cstate F G) array)
  (rowf : env F -> nat -> result array) (N D : nat) :
  (forall n g cs,
     body n g cs = (rbind (rowf (captured cs) n) (set_row g n), cs)) ->
  forall len k f1 f2 cs1 cs2,
    k + len = N -> captured cs1 = captured cs2 ->
    (forall i j, i < k -> j < D -> f1 i j = f2 i j) ->
    fst (for_range (seq k len) body (mk2 N D f1) cs1)
    = fst (for_range (seq k len) body (mk2 N D f2) cs2).
Proof.
  intros Hbody. induction len as [|len IH]; intros k f1 f2 cs1 cs2 Hk E Hf.
  - cbn. f_equal. apply mk2_ext. intros i j Hi Hj. apply Hf; lia.
  - cbn [seq for_range]. unfold bind. rewrite !Hbody, <- E.
    destruct (rowf (captured cs1) k) as [row|e]; cbn [rbind]; [|reflexivity].
    unfold set_row. cbn [shape mk2].
    rewrite (proj2 (Nat.ltb_lt k N)) by lia.
    destruct (shape_eqb (shape row) [D]); [|reflexivity].
    apply IH; [lia | exact E |].
    intros i j Hi Hj. destruct (Nat.eqb_spec i k); [reflexivity|].
    rewrite !get2_mk2 by lia. apply Hf; lia.
Qed.

Lemma rff_approximation_gradient_env_only (x : array) :
  env_only (rff_approximation_gradient x : SE (cstate F G) array).
Proof.
  unfold rff_approximation_gradient.
  apply env_only_bind; [auto with pure | auto with pure | intros N].
  apply env_only_bind; [auto with pure | auto with pure | intros D].
  apply env_only_bind; [auto with pure | auto with pure | intros _].
  apply env_only_bind; [auto with pure | auto with pure | intros W].
  apply env_only_bind; [auto with pure | auto with pure | intros B].
  apply env_only_bind; [auto with pure | auto with pure | intros temp].
  apply env_only_bind; [auto with pure | auto with pure | intros M].
  apply env_only_bind; [auto with pure | auto with pure | intros _].
  intros cs1 cs2 E.
  set (rowf := fun (e : env F) (n : nat) =>
    rbind (column temp n) (fun temp_n =>
    rbind (mul_1d_2d (smul (fneg (env_sqrt_2_alpha_over_m e)) temp_n)
                     (transpose (env_W e))) (fun gphi =>
    dot gphi (env_sample_of_theta e)))).
  match goal with
  | |- context [for_range _ ?b] => set (body := b)
  end.
  assert (Hbody : forall n g cs,
    body n g cs = (rbind (rowf (captured cs) n) (set_row g n), cs)).
  { intros n g cs. unfold body, rowf, bind, read, lift.
    destruct (column temp n) as [tn|]; cbn [rbind]; [|reflexivity].
    destruct (mul_1d_2d _ _) as [gp|]; cbn [rbind]; [|reflexivity].
    now destruct (dot gp _). }
  pose proof (@loop_rows_independent body rowf N D Hbody N 0
                (fun i j => uninit (outer cs1) (i * D + j))
                (fun i j => uninit (outer cs2) (i * D + j)) cs1 cs2
                eq_refl E) as L.
  assert (HQ : forall i j : nat, i < 0 -> j < D ->
    uninit (outer cs1) (i * D + j) = uninit (outer cs2) (i * D + j))
    by (intros; lia).
  specialize (L HQ).
  unfold bind, np_empty2, empty2, ret.
  destruct (for_range _ _ _ cs1) as [r1 s1],
           (for_range _ _ _ cs2) as [r2 s2].
  cbn [fst] in L. subst r2. now destruct r1.
Qed.

Lemma vectorize_pure (fn : array -> SE (cstate F G) array) :
  pure_callable fn -> pure_callable (_vectorize fn).
Proof.
  intros Hf x. unfold _vectorize.
  destruct (Nat.eqb (ndim x) 1).
  - destruct (Hf (atleast_2d x)). split; auto with pure.
  - apply Hf.
Qed.

(** C9.  Each of the three returned callables is pure: an evaluation
    leaves the captured W, B, theta, the random generator and everything
    else of the state as they were, and its outcome is determined by the
    input and the captured variables, so a second evaluation on the same
    input gives the same output. *)
Theorem returned_callables_pure :
  pure_callable (f_rff (G:=G)) /\
  pure_callable (f_rff_njit (G:=G)) /\
  pure_callable (g_rff_njit (G:=G)) /\
  forall fn, pure_callable fn ->
    forall (x : array) (cs : cstate F G),
      let first := fn x cs in
      let second := fn x (snd first) in
      fst second = fst first /\
      captured (snd second) = captured cs /\
      snd second = cs.
Proof.
  assert (Hf : pure_callable (rff_approximation (G:=G))).
  { intros x. split;
      [apply rff_approximation_readonly | apply rff_approximation_env_only]. }
  assert (Hg : pure_callable (rff_approximation_gradient (G:=G))).
  { intros x. split;
      [apply rff_approximation_gradient_readonly
      | apply rff_approximation_gradient_env_only]. }
  unfold f_rff, f_rff_njit, g_rff_njit, njit.
  split; [now apply vectorize_pure|].
  split; [now apply vectorize_pure|].
  split; [now apply vectorize_pure|].
  intros fn Hfn x cs. cbv zeta.
  destruct (Hfn x) as (R & _). rewrite !(R cs). now repeat split.
Qed.

End ProgramFacts.

(** * The reference library and worked examples *)

Lemma ref_lib_contract (chol general : bool) :
  library_contract (ref_lib chol general).
Proof.
  assert (Hfit : forall (scale : ndarray sym) size,
    shape scale = [last size 1] -> scale_fits scale size = true).
  { intros scale size E. unfold scale_fits. rewrite E.
    rewrite Nat.eqb_refl. apply orb_true_r. }
  assert (Hall : forall l : list sym,
    Forall (fun s => fge0 s = true) l -> forallb sym_ge0 l = true).
  { intros l Hl. apply forallb_forall. rewrite Forall_forall in Hl.
    exact Hl. }
  constructor.
  - intros loc scale size g Hs Hsh. cbn [random_normal ref_lib].
    unfold ref_normal. rewrite (Hall _ Hs), (Hfit _ _ Hsh). cbn [andb].
    now eexists _, _.
  - intros nu loc scale size g Hnu Hs Hsh. cbn [stats_t_rvs ref_lib].
    unfold ref_t_rvs. cbn [fgt0 sym_scalar] in Hnu.
    rewrite Hnu, (Hall _ Hs), (Hfit _ _ Hsh). cbn [andb].
    now eexists _, _.
  - intros size g. cbn [random_uniform ref_lib]. unfold ref_uniform.
    now eexists _, _.
Qed.

(** C1.  The check of [kernel_nu] (line 121) reads
    [not numpy.isscalar(kernel_nu) and kernel_nu > 0], so it never fires
    for a scalar: with kernel_nu = -1.0 and otherwise valid arguments the
    input check passes, no DtypeError is raised, and the program goes on
    to ask scipy for Student-t samples with -1 degrees of freedom. *)
Theorem negative_kernel_nu_passes_check :
  fgt0 (SLit (-1)) = false /\
  check_inputs ls0 (num 1) (num 1) (PyScalar (SLit (-1))) X0 Y0 = Ok c0 /\
  fst (sample_rff (ref_lib true true) ls0 (num 1) (num 1)
         (PyScalar (SLit (-1))) X0 Y0 2 w0) = Raise ValueError /\
  trace (snd (sample_rff (ref_lib true true) ls0 (num 1) (num 1)
                (PyScalar (SLit (-1))) X0 Y0 2 w0))
  = [call_t_rvs (PyScalar (SLit (-1))) (SLit 0)
       (rdiv (SLit 1) ls0) [2; 2]].
Proof. repeat split; vm_compute; reflexivity. Qed.

(** C2, as stated, fails: a negative lengthscale passes the input check,
    and the request for [W] it leads to, with scale 1/(-1), is one that
    the normal sampler refuses. *)
Lemma negative_lengthscale_sampling_fails :
  library_contract (ref_lib true true) /\
  check_inputs (vec [-1; 2]%Z) (num 1) (num 1) (PyScalar SInf) X0 Y0
  = Ok {| chk_X := X0; chk_Y := Y0; chk_lengthscales := vec [-1; 2]%Z;
          chk_D := 2; chk_N_obs := 2 |} /\
  sample_W_B (ref_lib true true) (PyScalar SInf) (vec [-1; 2]%Z) 2 2 w0
  = (Raise ValueError,
     {| gen := 0;
        trace := [call_normal (SLit 0) (rdiv (SLit 1) (vec [-1; 2]%Z)) [2; 2]];
        uninit := SJunk |}) /\
  fst (sample_rff (ref_lib true true) (vec [-1; 2]%Z) (num 1) (num 1)
         (PyScalar SInf) X0 Y0 2 w0) = Raise ValueError.
Proof.
  split; [apply ref_lib_contract|]. repeat split; vm_compute; reflexivity.
Qed.

(** The run the examples start from. *)
Lemma run0_returns :
  sample_rff (ref_lib true true) ls0 (num 1) (num 1) (PyScalar SInf) X0 Y0 2 w0
  = (Ok e0, w1).
Proof. vm_compute. reflexivity. Defined.

(** C2 at a Matern-3/2 kernel with lengthscales (1, 2). *)
Lemma spectral_sampling_witness :
  library_contract (ref_lib true true) /\
  check_inputs ls0 (num 1) (num 1) (PyScalar matern32) X0 Y0 = Ok c0 /\
  Forall (fun l => fge0 (fdiv (of_nat 1) l) = true) (data (chk_lengthscales c0)) /\
  (fisinf matern32 = false -> fgt0 matern32 = true) /\
  exists W B g1 w',
    sample_W_B (ref_lib true true) (PyScalar matern32)
      (chk_lengthscales c0) 2 (chk_D c0) w0 = (Ok (W, B), w') /\
    answer (ref_lib true true)
      (W_request matern32 (chk_lengthscales c0) 2 (chk_D c0)) (gen w0)
    = (Ok W, g1) /\
    answer (ref_lib true true) (B_request 2) g1 = (Ok B, gen w') /\
    trace w'
    = trace w0 ++ [W_request matern32 (chk_lengthscales c0) 2 (chk_D c0);
                   B_request 2] /\
    shape W = [2; chk_D c0] /\ shape B = [2; 1] /\
    (forall d, d < length (data (chk_lengthscales c0)) ->
       get1 (rdiv (of_nat 1) (chk_lengthscales c0)) d
       = fdiv (of_nat 1) (get1 (chk_lengthscales c0) d)).
Proof.
  assert (H1 : library_contract (ref_lib true true))
    by apply ref_lib_contract.
  assert (H2 : check_inputs ls0 (num 1) (num 1) (PyScalar matern32) X0 Y0
               = Ok c0) by reflexivity.
  assert (H3 : Forall (fun l => fge0 (fdiv (of_nat 1) l) = true)
                 (data (chk_lengthscales c0)))
    by (repeat constructor).
  assert (H4 : fisinf matern32 = false -> fgt0 matern32 = true)
    by (intros _; reflexivity).
  repeat (split; [assumption|]).
  exact (spectral_sampling ls0 (num 1) (num 1) matern32 X0 Y0 2 w0 H1 H2 H3 H4).
Defined.

(** C3 at a 2 x 1 embedding. *)
Lemma posterior_formula_witness :
  shape zeta1 = [2; 1] /\ shape Y1 = [1] /\
  _compute_inverse (ref_lib true true) (A_spec zeta1 (item (num 1)) 2 1) w0
  = (Ok A_inverse1, w2) /\
  shape A_inverse1 = [2; 2] /\
  posterior_of_theta (ref_lib true true) zeta1 Y1 (num 1) 2 w0
  = (Ok (mean_spec A_inverse1 zeta1 Y1 (item (num 1)) 2 1, A_inverse1), w2).
Proof.
  assert (H3 : _compute_inverse (ref_lib true true)
                 (A_spec zeta1 (item (num 1)) 2 1) w0 = (Ok A_inverse1, w2))
    by (vm_compute; reflexivity).
  repeat (split; [first [reflexivity | exact H3]|]).
  exact (proj1 (posterior_formula (ref_lib true true) zeta1 Y1 (num 1) w0
                  (M:=2) (N:=1) eq_refl eq_refl H3 eq_refl)).
Defined.

(** C5 at the captured W and B of the run above and its training X. *)
Lemma feature_map_formula_witness :
  shape (env_W e0) = [2; 2] /\ shape (env_B e0) = [2; 1] /\
  shape X0 = [2; 2] /\
  zeta_of (sqrt_2_alpha_over_m_of (num 1) 2) (env_W e0) X0 (env_B e0)
  = Ok (phi_spec (fpow2 (item (num 1))) 2 2 2 (env_W e0) (env_B e0) X0).
Proof.
  repeat (split; [reflexivity|]).
  exact (proj1 (feature_map_formula (num 1) (env_W e0) (env_B e0) X0
                  (M:=2) (D:=2) (N:=2) eq_refl eq_refl eq_refl)).
Defined.

(** C6 at a single point and at the training batch. *)
Lemma f_rff_formula_witness :
  captured cs0 = e0 /\ shape x1 = [env_D e0] /\
  f_rff x1 cs0
  = (Ok (scalar0
           (f_entry (fpow2 (item (num 1))) 2 (env_D e0) (env_W e0) (env_B e0)
              (env_sample_of_theta e0) (atleast_2d x1) 0)), cs0).
Proof.
  repeat (split; [reflexivity|]).
  exact (proj1 (proj2 (f_rff_formula (ref_lib true true) ls0 (num 1) (num 1)
                         (PyScalar SInf) X0 Y0 2 w0 x1 cs0
                         run0_returns eq_refl) eq_refl)).
Defined.

(** C7 at a single point. *)
Lemma g_rff_formula_witness :
  captured cs0 = e0 /\ shape x1 = [env_D e0] /\
  g_rff_njit x1 cs0
  = (Ok (mk1 (env_D e0)
           (grad_entry (fpow2 (item (num 1))) 2 (env_D e0) (env_W e0)
              (env_B e0) (env_sample_of_theta e0) (atleast_2d x1) 0)), cs0).
Proof.
  repeat (split; [reflexivity|]).
  exact (proj2 (g_rff_formula (ref_lib true true) ls0 (num 1) (num 1)
                  (PyScalar SInf) X0 Y0 2 w0 x1 cs0
                  run0_returns eq_refl) eq_refl).
Defined.

(** C8 at three observed values for two coordinates. *)
Lemma sample_rff_raises_ShapeError_witness :
  nth 0 (shape (atleast_2d X0)) 0 <> nth 0 (shape (atleast_1d (vec [5; 7; 9]%Z))) 0 /\
  sample_rff (ref_lib true true) ls0 (num 1) (num 1) (PyScalar SInf) X0
    (vec [5; 7; 9]%Z) 2 w0
  = (Raise ShapeError, w0).
Proof.
  assert (Hne : nth 0 (shape (atleast_2d X0)) 0
                <> nth 0 (shape (atleast_1d (vec [5; 7; 9]%Z))) 0)
    by (cbn; lia).
  split; [exact Hne|].
  exact (proj2 (sample_rff_raises_ShapeError (ref_lib true true) ls0 (num 1)
                  (num 1) (PyScalar SInf) X0 (vec [5; 7; 9]%Z) 2 w0
                  (or_introl Hne))).
Defined.

(** C10 at a point with three coordinates where D = 2. *)
Lemma callables_reject_wrong_dimension_witness :
  shape (vec [1; 2; 3]%Z) = [3] /\ 3 <> env_D (captured cs0) /\
  f_rff (vec [1; 2; 3]%Z) cs0 = (Raise AssertionError, cs0) /\
  f_rff_njit (vec [1; 2; 3]%Z) cs0 = (Raise AssertionError, cs0) /\
  g_rff_njit (vec [1; 2; 3]%Z) cs0 = (Raise AssertionError, cs0).
Proof.
  assert (Hne : 3 <> env_D (captured cs0)) by (cbn; lia).
  split; [reflexivity|]. split; [exact Hne|].
  exact (callables_reject_wrong_dimension (vec [1; 2; 3]%Z) cs0
           (or_intror (ex_intro _ 3 (conj eq_refl Hne)))).
Defined.

(** The fallback at work: when the Cholesky factorisation raises
    LinAlgError the general inverse is returned, and when that raises too
    its exception reaches the caller. *)
Example fallback_to_general_inverse :
  _compute_inverse (ref_lib false true) (eye 2) w0
  = (Ok (linalg_result 2 [2; 2]),
     {| gen := 0; trace := [call_cho_factor (eye 2); call_inv (eye 2)];
        uninit := SJunk |}).
Proof. reflexivity. Qed.

Example both_routes_fail :
  _compute_inverse (ref_lib false false) (eye 2) w0
  = (Raise LinAlgError,
     {| gen := 0; trace := [call_cho_factor (eye 2); call_inv (eye 2)];
        uninit := SJunk |}).
Proof. reflexivity. Qed.

Example cholesky_route_suffices :
  _compute_inverse (ref_lib true true) (eye 2) w0
  = (Ok (linalg_result 1 [2; 2]),
     {| gen := 0;
        trace := [call_cho_factor (eye 2);
                  call_cho_solve (linalg_result 0 [2; 2]) (eye 2)];
        uninit := SJunk |}).
Proof. reflexivity. Qed.

(** * Further properties of the code *)

Section InputCheck.

Context {F : Type} `{Scalar F}.
Variable G : Type.
Variable lib : Library F G.

Local Abbreviation array := (ndarray F).

Lemma shapes_accepted_dec (lengthscales scaling noise X Y : array) :
  shapes_accepted lengthscales scaling noise X Y \/
  ~ shapes_accepted lengthscales scaling noise X Y.
Proof.
  unfold shapes_accepted.
  destruct (list_eq_dec Nat.eq_dec (shape (atleast_2d X))
              [nth 0 (shape (atleast_1d Y)) 0;
               nth 1 (shape (atleast_2d X)) 0]);
  destruct (list_eq_dec Nat.eq_dec (shape (atleast_1d lengthscales))
              [nth 1 (shape (atleast_2d X)) 0]);
  destruct (Nat.eq_dec (ndim scaling) 0);
  destruct (Nat.eq_dec (ndim noise) 0); tauto.
Qed.

(** The input check with its four shape tests decided. *)
Lemma check_inputs_cases (lengthscales scaling noise : array)
  (kernel_nu : pyval F) (X Y : array) :
  (~ shapes_accepted lengthscales scaling noise X Y /\
   check_inputs lengthscales scaling noise kernel_nu X Y = Raise ShapeError) \/
  (shapes_accepted lengthscales scaling noise X Y /\
   check_inputs lengthscales scaling noise kernel_nu X Y
   = rbind (if negb (isscalar kernel_nu) then truth fgt0 kernel_nu
            else Ok false)
       (fun c =>
          if c then Raise DtypeError
          else Ok {| chk_X := atleast_2d X; chk_Y := atleast_1d Y;
                     chk_lengthscales := atleast_1d lengthscales;
                     chk_D := nth 1 (shape (atleast_2d X)) 0;
                     chk_N_obs := nth 0 (shape (atleast_1d Y)) 0 |})).
Proof.
  unfold shapes_accepted, check_inputs.
  destruct (shape_eqb (shape (atleast_2d X)) _) eqn:E1.
  2:{ left. split; [|reflexivity]. intros (C & _).
      apply shape_eqb_true in C. congruence. }
  destruct (shape_eqb (shape (atleast_1d lengthscales)) _) eqn:E2.
  2:{ left. split; [|reflexivity]. intros (_ & C & _).
      apply shape_eqb_true in C. congruence. }
  destruct (Nat.eqb_spec (ndim scaling) 0) as [E3|E3].
  2:{ left. split; [|reflexivity]. tauto. }
  destruct (Nat.eqb_spec (ndim noise) 0) as [E4|E4].
  2:{ left. split; [|reflexivity]. tauto. }
  right. apply shape_eqb_true in E1, E2. cbn [negb]. now repeat split.
Qed.


(** X2.  The input check raises ShapeError exactly when one of the four
    shape conditions fails: the normalised X is not of shape (len(Y),
    X.shape[1]) (which includes an X of rank 3 or more), lengthscales is
    not of shape (D,), or scaling or noise is not 0-dimensional. *)
Theorem check_inputs_ShapeError_iff (lengthscales scaling noise : array)
  (kernel_nu : pyval F) (X Y : array) :
  check_inputs lengthscales scaling noise kernel_nu X Y = Raise ShapeError <->
  (shape (atleast_2d X)
   <> [nth 0 (shape (atleast_1d Y)) 0; nth 1 (shape (atleast_2d X)) 0] \/
   shape (atleast_1d lengthscales) <> [nth 1 (shape (atleast_2d X)) 0] \/
   ndim scaling <> 0 \/
   ndim noise <> 0).
Proof.
  destruct (check_inputs_cases lengthscales scaling noise kernel_nu X Y)
    as [(Hn & E) | (Hs & E)]; rewrite E; clear E.
  - split; [intros _ | reflexivity].
    unfold shapes_accepted in Hn.
    destruct (list_eq_dec Nat.eq_dec (shape (atleast_2d X))
                [nth 0 (shape (atleast_1d Y)) 0;
                 nth 1 (shape (atleast_2d X)) 0]); [|tauto].
    destruct (list_eq_dec Nat.eq_dec (shape (atleast_1d lengthscales))
                [nth 1 (shape (atleast_2d X)) 0]); [|tauto].
    destruct (Nat.eq_dec (ndim scaling) 0); [|tauto].
    destruct (Nat.eq_dec (ndim noise) 0); tauto.
  - split.
    + destruct (isscalar kernel_nu); cbn [negb rbind]; [discriminate|].
      destruct (truth fgt0 kernel_nu) as [[|]|e] eqn:T; cbn [rbind];
        try discriminate.
      intros E. inversion E; subst. apply truth_raises in T. discriminate.
    + unfold shapes_accepted in Hs. tauto.
Qed.

(** X3.  DtypeError is raised exactly when the shape conditions hold and
    [kernel_nu] is a non-scalar (an array, also a 0-dimensional one) whose
    single element is positive; [sample_rff] then raises it before any
    library call.  So a positive 0-dimensional array is refused while any
    scalar is let through. *)
Theorem check_inputs_DtypeError_iff (lengthscales scaling noise : array)
  (kernel_nu : pyval F) (X Y : array) (M : nat) (w : world F G) :
  (check_inputs lengthscales scaling noise kernel_nu X Y = Raise DtypeError <->
   shapes_accepted lengthscales scaling noise X Y /\
   exists a x, kernel_nu = PyArray a /\ data a = [x] /\ fgt0 x = true) /\
  (check_inputs lengthscales scaling noise kernel_nu X Y = Raise DtypeError ->
   sample_rff lib lengthscales scaling noise kernel_nu X Y M w
   = (Raise DtypeError, w)).
Proof.
  split.
  - destruct (check_inputs_cases lengthscales scaling noise kernel_nu X Y)
      as [(Hn & E) | (Hs & E)]; rewrite E; clear E.
    + split; [discriminate | tauto].
    + destruct kernel_nu as [x|a]; cbn [isscalar negb rbind truth].
      * split; [discriminate|]. intros (_ & a & y & C & _). discriminate.
      * destruct (data a) as [|x [|y l]] eqn:Da; cbn [rbind].
        -- split; [discriminate|].
           intros (_ & a' & y & C & D & _). inversion C; subst. congruence.
        -- destruct (fgt0 x) eqn:P; cbn [rbind].
           ++ split; [intros _ | reflexivity].
              split; [exact Hs|]. now exists a, x.
           ++ split; [discriminate|].
              intros (_ & a' & y & C & D & Q). inversion C; subst.
              rewrite Da in D. inversion D; subst. congruence.
        -- split; [discriminate|].
           intros (_ & a' & z & C & D & _). inversion C; subst.
           rewrite Da in D. discriminate.
  - intros E. unfold sample_rff, bind, lift. now rewrite E.
Qed.


(** X5.  A 1-dimensional X is read as one observation with len(X)
    coordinates, so with any number of observed values other than one the
    input check raises ShapeError: N points of a one-dimensional problem
    have to be passed as an (N, 1) array. *)
Theorem one_dimensional_X_is_one_point (lengthscales scaling noise : array)
  (kernel_nu : pyval F) (X Y : array) (n : nat) :
  shape X = [n] ->
  nth 0 (shape (atleast_1d Y)) 0 <> 1 ->
  check_inputs lengthscales scaling noise kernel_nu X Y = Raise ShapeError.
Proof.
  intros HX HY.
  destruct (check_inputs_cases lengthscales scaling noise kernel_nu X Y)
    as [(_ & E) | ((C & _) & _)]; [exact E|].
  exfalso. unfold atleast_2d in C. rewrite HX in C. cbn [shape] in C.
  inversion C. congruence.
Qed.

End InputCheck.

Section Callables.

Context {F : Type} `{Scalar F}.
Variable G : Type.

Local Abbreviation array := (ndarray F).






(** X7.  A 0-dimensional input is not rank-adapted: where D = 1 the
    approximation returns an array of shape (1,), not a scalar, and the
    gradient an array of shape (1, 1), since [_vectorize] decrements the
    rank for 1-dimensional inputs only. *)
Theorem scalar_input_keeps_batch_axis (x : array) (cs : cstate F G) :
  env_ok (captured cs) -> env_D (captured cs) = 1 -> shape x = [] ->
  exists y g,
    f_rff x cs = (Ok y, cs) /\ f_rff_njit x cs = (Ok y, cs) /\
    g_rff_njit x cs = (Ok g, cs) /\
    shape y = [1] /\ shape g = [1; 1] /\
    y = approx_value (captured cs) (mk_nd [1; 1] (data x)) 1 /\
    g = gradient_value (captured cs) (mk_nd [1; 1] (data x)) 1.
Proof.
  intros Hok HD Hx.
  assert (E : atleast_2d x = mk_nd [1; 1] (data x))
    by (unfold atleast_2d; now rewrite Hx).
  assert (Hs : shape (atleast_2d x) = [1; env_D (captured cs)])
    by (now rewrite E, HD).
  unfold f_rff, f_rff_njit, g_rff_njit, njit, _vectorize, ndim.
  rewrite Hx. cbn [length Nat.eqb].
  rewrite (rff_approximation_value cs _ Hok Hs).
  rewrite (rff_approximation_gradient_value cs _ Hok Hs).
  rewrite E. eexists _, _. repeat split.
  unfold gradient_value. now rewrite HD.
Qed.





End Callables.

Section Construction.

Context {F : Type} `{Scalar F}.
Variable G : Type.
Variable lib : Library F G.

Local Abbreviation array := (ndarray F).

Lemma bind_run {St A B} (m : SE St A) (k : A -> SE St B) s a s1 r :
  m s = (Ok a, s1) -> k a s1 = r -> bind m k s = r.
Proof. intros E1 E2. unfold bind. now rewrite E1. Qed.

Lemma bind_raise {St A B} (m : SE St A) (k : A -> SE St B) s e s1 :
  m s = (Raise e, s1) -> bind m k s = (Raise e, s1).
Proof. intros E1. unfold bind. now rewrite E1. Qed.

Lemma assert_true {St} (b : bool) (s : St) :
  b = true -> assert_ b s = (Ok tt, s).
Proof. now intros ->. Qed.

(** The posterior step once the Gram matrix is formed. *)
Lemma posterior_unfold (zeta Y noise : array) (M N : nat) (w : world F G) :
  shape zeta = [M; N] ->
  posterior_of_theta lib zeta Y noise M w
  = (A_inverse <-
       _compute_inverse lib (A_spec zeta (item noise) M N) ;;
     assert_ (shape_eqb (shape A_inverse) [M; M]) ;;;
     Az <- lift (dot A_inverse zeta) ;;
     AzY <- lift (dot Az Y) ;;
     assert_ (shape_eqb (shape (divide AzY (item noise))) [M]) ;;;
     assert_ (shape_eqb (shape A_inverse) [M; M]) ;;;
     ret (divide AzY (item noise), A_inverse)) w.
Proof.
  intros Hz. pose proof (gram_value _ (item noise) Hz) as Eg.
  unfold posterior_of_theta. unfold bind at 1, lift at 1.
  destruct (dot zeta (transpose zeta)) as [zzT|e]; [|discriminate].
  cbn [rbind] in Eg. unfold bind at 1, lift at 1. now rewrite Eg.
Qed.

(** X9.  A failing inversion is not caught by the posterior step: whatever
    [_compute_inverse] raises on A = zeta zeta^T / noise + I_M is raised by
    the posterior step, with the state the inversion left. *)
Theorem posterior_propagates_inverse_failure
  (zeta Y noise : array) (M N : nat) (w w1 : world F G) (e : exn) :
  shape zeta = [M; N] ->
  _compute_inverse lib (A_spec zeta (item noise) M N) w = (Raise e, w1) ->
  posterior_of_theta lib zeta Y noise M w = (Raise e, w1).
Proof.
  intros Hz Hinv. rewrite posterior_unfold with (N:=N) by exact Hz.
  now apply bind_raise.
Qed.

(** X10.  The input check does not look at the rank of Y: a 2-dimensional
    Y of shape (N, k) is accepted with a matching X, and the posterior
    step then stops at its assertion on the shape of the mean, since
    A^-1 zeta Y has shape (M, k). *)
Theorem two_dimensional_Y_fails_late
  (lengthscales scaling noise X Y zeta A_inverse : array) (nu : F)
  (M N D k : nat) (w w1 : world F G) :
  shape X = [N; D] -> shape Y = [N; k] -> shape lengthscales = [D] ->
  ndim scaling = 0 -> ndim noise = 0 ->
  shape zeta = [M; N] ->
  _compute_inverse lib (A_spec zeta (item noise) M N) w = (Ok A_inverse, w1) ->
  shape A_inverse = [M; M] ->
  check_inputs lengthscales scaling noise (PyScalar nu) X Y
  = Ok {| chk_X := X; chk_Y := Y; chk_lengthscales := lengthscales;
          chk_D := D; chk_N_obs := N |} /\
  posterior_of_theta lib zeta Y noise M w = (Raise AssertionError, w1).
Proof.
  intros HX HY Hl Hs Hn Hz Hinv HA. split.
  - assert (EX : atleast_2d X = X) by (unfold atleast_2d; now rewrite HX).
    assert (EY : atleast_1d Y = Y) by (unfold atleast_1d; now rewrite HY).
    assert (El : atleast_1d lengthscales = lengthscales)
      by (unfold atleast_1d; now rewrite Hl).
    unfold check_inputs. rewrite EX, EY, El, HX, HY, Hl. cbn [nth].
    rewrite !shape_eqb_refl, Hs, Hn. reflexivity.
  - rewrite posterior_unfold with (N:=N) by exact Hz.
    eapply bind_run; [exact Hinv|].
    eapply bind_run; [apply assert_true; rewrite HA; apply shape_eqb_refl|].
    eapply bind_run;
      [unfold lift; rewrite (dot_2d_2d _ _ HA Hz); reflexivity|].
    eapply bind_run;
      [unfold lift; rewrite (@dot_2d_2d _ _ _ _ M N k) by (reflexivity || exact HY);
       reflexivity|].
    unfold divide. rewrite amap_mk2. unfold bind, assert_. cbn [shape mk2].
    rewrite shape_eqb_false by discriminate. reflexivity.
Qed.

Lemma dot_result_1d (a b r : array) (m k : nat) :
  shape a = [m; k] -> dot a b = Ok r -> shape r = [m] -> shape b = [k].
Proof.
  intros Ha E Hr. unfold dot in E. rewrite Ha in E.
  destruct (shape b) as [|k' [|n [|p rest]]]; try discriminate.
  - destruct (Nat.eqb_spec k k'); [|discriminate]. now subst.
  - destruct (Nat.eqb k k'); [|discriminate].
    inversion E; subst. discriminate.
  - destruct (Nat.eqb k _); [|discriminate].
    inversion E; subst. cbn [shape] in Hr. inversion Hr.
Qed.

Lemma posterior_needs_1d_Y (zeta Y noise : array) (M N : nat)
  (w w' : world F G) post :
  shape zeta = [M; N] ->
  posterior_of_theta lib zeta Y noise M w = (Ok post, w') ->
  shape Y = [N].
Proof.
  intros Hz E. rewrite posterior_unfold with (N:=N) in E by exact Hz.
  apply bind_Ok in E as (Ai & w1 & _ & E).
  apply bind_Ok in E as (u1 & w2 & A1 & E). apply assert_Ok in A1 as (A1 & _).
  apply shape_eqb_true in A1.
  apply bind_Ok in E as (Az & w3 & E1 & E). apply lift_Ok in E1 as (E1 & _).
  rewrite (dot_2d_2d _ _ A1 Hz) in E1. inversion E1; subst Az.
  apply bind_Ok in E as (AzY & w4 & E2 & E). apply lift_Ok in E2 as (E2 & _).
  apply bind_Ok in E as (u2 & w5 & A2 & _). apply assert_Ok in A2 as (A2 & _).
  apply shape_eqb_true in A2. unfold divide, amap in A2. cbn [shape] in A2.
  eapply dot_result_1d; [|exact E2|exact A2]. reflexivity.
Qed.

(** X11.  What a successful call implies about the training data:
    [sample_rff] returns only if the normalised Y is 1-dimensional, the
    normalised X has shape (len(Y), D), and there is at least one
    observation; an empty training set, or a Y of higher rank, passes the
    input check and fails later. *)
Theorem sample_rff_returns_only_if
  lengthscales scaling noise kernel_nu X Y M (w w' : world F G) (e : env F) :
  sample_rff lib lengthscales scaling noise kernel_nu X Y M w = (Ok e, w') ->
  exists N,
    1 <= N /\
    shape (atleast_1d Y) = [N] /\
    shape (atleast_2d X) = [N; env_D e] /\
    shape (atleast_1d lengthscales) = [env_D e].
Proof.
  unfold sample_rff. intros E.
  apply bind_Ok in E as (c & w1 & Hc & E). apply lift_Ok in Hc as (Hc & _).
  apply check_inputs_Ok in Hc as (-> & HX & Hl & _).
  cbv beta zeta in E.
  cbn [chk_X chk_Y chk_D chk_N_obs chk_lengthscales] in E.
  apply bind_Ok in E as ([W B] & w2 & _ & E). cbn [fst snd] in E.
  apply bind_Ok in E as (zeta & w3 & _ & E).
  apply bind_Ok in E as (u1 & w4 & Hz & E). apply assert_Ok in Hz as (Hz & _).
  apply shape_eqb_true in Hz.
  apply bind_Ok in E as (post & w5 & Hp & E).
  apply posterior_needs_1d_Y with (N := nth 0 (shape (atleast_1d Y)) 0) in Hp;
    [|exact Hz].
  apply bind_Ok in E as (theta & w6 & _ & E).
  apply bind_Ok in E as (u2 & w7 & _ & E).
  apply bind_Ok in E as (X0 & w8 & H0 & E). apply lift_Ok in H0 as (H0 & _).
  apply bind_Ok in E as (y & w9 & _ & E).
  apply bind_Ok in E as (u3 & w10 & _ & E).
  apply bind_Ok in E as (g & w11 & _ & E).
  apply bind_Ok in E as (u4 & w12 & _ & E).
  apply ret_Ok in E as (<- & _). cbn [env_D].
  exists (nth 0 (shape (atleast_1d Y)) 0). repeat split; try assumption.
  unfold index0 in H0. rewrite HX in H0.
  destruct (Nat.eqb_spec (nth 0 (shape (atleast_1d Y)) 0) 0);
    [discriminate | lia].
Qed.

End Construction.

Section Totality.

Context {F : Type} `{Scalar F}.
Variable G : Type.
Variable lib : Library F G.

Local Abbreviation array := (ndarray F).






End Totality.

(** * Worked examples of the further properties *)




Lemma env_ok_e1 : env_ok (captured cs1).
Proof. repeat split. Qed.

(** X5 at three points of a one-dimensional problem passed as a vector. *)
Lemma one_dimensional_X_is_one_point_witness :
  shape (vec [0; 1; 2]%Z) = [3] /\
  nth 0 (shape (atleast_1d (vec [5; 7; 9]%Z))) 0 <> 1 /\
  check_inputs (vec [1]%Z) (num 1) (num 1) (PyScalar SInf)
    (vec [0; 1; 2]%Z) (vec [5; 7; 9]%Z) = Raise ShapeError.
Proof.
  assert (Hne : nth 0 (shape (atleast_1d (vec [5; 7; 9]%Z))) 0 <> 1)
    by (cbn; lia).
  split; [reflexivity|]. split; [exact Hne|].
  exact (one_dimensional_X_is_one_point (vec [1]%Z) (num 1) (num 1)
           (PyScalar SInf) (vec [0; 1; 2]%Z) (vec [5; 7; 9]%Z) (n:=3)
           eq_refl Hne).
Defined.

(** X7 at the input 4.0 of a one-dimensional problem. *)
Lemma scalar_input_keeps_batch_axis_witness :
  env_ok (captured cs1) /\ env_D (captured cs1) = 1 /\ shape (num 4) = [] /\
  exists y g,
    f_rff (num 4) cs1 = (Ok y, cs1) /\ f_rff_njit (num 4) cs1 = (Ok y, cs1) /\
    g_rff_njit (num 4) cs1 = (Ok g, cs1) /\
    shape y = [1] /\ shape g = [1; 1] /\
    y = approx_value (captured cs1) (mk_nd [1; 1] (data (num 4))) 1 /\
    g = gradient_value (captured cs1) (mk_nd [1; 1] (data (num 4))) 1.
Proof.
  split; [exact env_ok_e1|]. split; [reflexivity|]. split; [reflexivity|].
  exact (scalar_input_keeps_batch_axis (num 4) cs1 env_ok_e1 eq_refl eq_refl).
Defined.


(** X9 with a library whose two inversion routes both raise LinAlgError. *)
Lemma posterior_propagates_inverse_failure_witness :
  shape zeta1 = [2; 1] /\
  _compute_inverse (ref_lib false false) (A_spec zeta1 (item (num 1)) 2 1) w0
  = (Raise LinAlgError, w4) /\
  posterior_of_theta (ref_lib false false) zeta1 Y1 (num 1) 2 w0
  = (Raise LinAlgError, w4).
Proof.
  assert (E : _compute_inverse (ref_lib false false)
                (A_spec zeta1 (item (num 1)) 2 1) w0
              = (Raise LinAlgError, w4)) by (vm_compute; reflexivity).
  split; [reflexivity|]. split; [exact E|].
  exact (posterior_propagates_inverse_failure (ref_lib false false) zeta1 Y1
           (num 1) (M:=2) (N:=1) w0 eq_refl E).
Defined.

(** X10 at two observations with two values each. *)
Lemma two_dimensional_Y_fails_late_witness :
  shape X0 = [2; 2] /\ shape Y2 = [2; 2] /\ shape ls0 = [2] /\
  ndim (num 1) = 0 /\ shape zeta2 = [2; 2] /\
  _compute_inverse (ref_lib true true) (A_spec zeta2 (item (num 1)) 2 2) w0
  = (Ok A_inverse1, w3) /\
  shape A_inverse1 = [2; 2] /\
  check_inputs ls0 (num 1) (num 1) (PyScalar SInf) X0 Y2
  = Ok {| chk_X := X0; chk_Y := Y2; chk_lengthscales := ls0;
          chk_D := 2; chk_N_obs := 2 |} /\
  posterior_of_theta (ref_lib true true) zeta2 Y2 (num 1) 2 w0
  = (Raise AssertionError, w3).
Proof.
  assert (E : _compute_inverse (ref_lib true true)
                (A_spec zeta2 (item (num 1)) 2 2) w0 = (Ok A_inverse1, w3))
    by (vm_compute; reflexivity).
  repeat (split; [first [reflexivity | exact E]|]).
  exact (proj2 (two_dimensional_Y_fails_late (ref_lib true true) ls0 (num 1)
                  (num 1) X0 Y2 zeta2 SInf (M:=2) (N:=2) (D:=2) (k:=2) w0
                  eq_refl eq_refl eq_refl eq_refl eq_refl eq_refl E eq_refl)).
Defined.

(** X11 at the run of the examples. *)
Lemma sample_rff_returns_only_if_witness :
  sample_rff (ref_lib true true) ls0 (num 1) (num 1) (PyScalar SInf) X0 Y0 2 w0
  = (Ok e0, w1) /\
  exists N,
    1 <= N /\ shape (atleast_1d Y0) = [N] /\
    shape (atleast_2d X0) = [N; env_D e0] /\
    shape (atleast_1d ls0) = [env_D e0].
Proof.
  split; [exact run0_returns|].
  exact (sample_rff_returns_only_if (ref_lib true true) ls0 (num 1) (num 1)
           (PyScalar SInf) X0 Y0 2 w0 run0_returns).
Defined.

